(** * Audiobook-Player-GUI: the timed sound segments and the page arrow

    A shallow embedding of [SoundObject.py] and of [P3.py].

    Modelling decisions, fixed once for the whole development:

    - Python [int] is [Z].  A Python [float] is a binary64 number: a finite
      float is the rational it denotes, and every float operation of the
      program ([int / int], the conversion of an int that meets a float,
      [+=] and [-=]) is the exact operation followed by [round64], the
      rounding to the nearest binary64 number (ties to the even mantissa,
      gradual underflow, overflow past the largest finite float).  The two
      zeros are one rational: the program only ever rounds a float or adds
      to it, which cannot tell them apart.  A sum that overflows is an
      infinity, on which the [round] of the next statement raises
      [OverflowError]; a call that raises returns no object, so no
      infinity is ever a value of the model.  [round] is Python 3's
      round-half-to-even.
    - A Python exception is a [Raise] result.  Nothing in the two files
      catches anything but [pygame.error], so a [Raise] that reaches the
      end of a modelled function is what ends the process.
    - The module-level variable [TARGET_DURATION], the single stream of
      [pygame.mixer.music] and the text written by [print] form the
      [world] record that every function of [SoundObject.py] threads.
    - [pygame] itself is outside the repository.  Its music stream is the
      small record [mixer_music], with [load], [play], [stop], [pause] and
      [get_pos] as pygame documents them; the elapsed time the device
      reports is a field that the device, not the program, moves.
    - The disk and the device answer, for each call of pygame that can
      fail, with the exception it raises, if any: [pygame.error] (the one
      the program catches) or any other (a missing file raises
      [pygame.error] in some versions of pygame and [FileNotFoundError] in
      others).
    - Positions, line counts, start times and durations are ints, as at
      every call site of the two files. *)

From Stdlib Require Import ZArith QArith Qround Qpower Qabs Qreduction.
From Stdlib Require Import Bool List Ascii String Lia Lqa.
From Stdlib Require Import Morphisms.
Import ListNotations.

Open Scope Z_scope.

(** ** Exceptions and results *)

Inductive exn : Type :=
| SystemExit (message : string)
| ZeroDivisionError
| OverflowError
| pygame_error (message : string)
| other_exception (name : string).

Inductive result (A : Type) : Type :=
| Return (a : A)
| Raise (e : exn).

Arguments Return {A} a.
Arguments Raise {A} e.

(** ** Numbers *)

(** The nearest integer, a tie going to the even neighbour. *)
Definition round_half_even (q : Q) : Z :=
  let f := Qfloor q in
  match Qcompare (q - inject_Z f) (1 # 2) with
  | Lt => f
  | Gt => f + 1
  | Eq => if Z.even f then f else f + 1
  end.

Definition pow2 (e : Z) : Q := (2 ^ e)%Q.

(** The integer [l] with [2^l <= |q| < 2^(l+1)], for [q] other than 0. *)
Definition ilog2 (q : Q) : Z :=
  let l := Z.log2 (Z.abs (Qnum q)) - Z.log2 (Z.pos (Qden q)) in
  if Qle_bool (pow2 l) (Qabs q) then l else l - 1.

(** Rounding to binary64: 53 bits of mantissa, the exponent of the last
    bit no lower than -1074, nearest with ties to even; [None] when the
    rounded value does not fit below [2^1024] (an infinity). *)
Definition round64 (q : Q) : option Q :=
  if Qeq_bool q 0 then Some 0%Q
  else
    let e := Z.max (ilog2 q - 52) (-1074) in
    let r := Qred (inject_Z (round_half_even (q / pow2 e)) * pow2 e) in
    if Qle_bool (pow2 1024) (Qabs r) then None else Some r.

(** A value of the attribute [_y_with_decimal]: the int it is given at
    construction, or the float a move has left there. *)
Inductive number : Type :=
| PyInt (z : Z)
| PyFloat (x : Q).

Definition number_value (n : number) : Q :=
  match n with
  | PyInt z => inject_Z z
  | PyFloat x => x
  end.

(** [round(n)] with one argument. *)
Definition py_round (n : number) : Z :=
  match n with
  | PyInt z => z
  | PyFloat x => round_half_even x
  end.

(** The float operand an int becomes when it meets a float:
    [OverflowError] when the int is too large. *)
Definition to_float (n : number) : result Q :=
  match n with
  | PyInt z =>
      match round64 (inject_Z z) with
      | Some x => Return x
      | None => Raise OverflowError
      end
  | PyFloat x => Return x
  end.

(** [a / b] on two ints: the float nearest to the quotient;
    [ZeroDivisionError] when the divisor is [0], [OverflowError] when the
    quotient is too large for a float. *)
Definition py_truediv (a b : Z) : result Q :=
  if b =? 0 then Raise ZeroDivisionError
  else
    match round64 (inject_Z a / inject_Z b) with
    | Some x => Return x
    | None => Raise OverflowError
    end.

(** [x + y] and [x - y] on two floats; [None] is an infinity. *)
Definition float_add (x y : Q) : option Q := round64 (x + y).
Definition float_sub (x y : Q) : option Q := round64 (x - y).

(** ** [os.path.join] on two components (POSIX) *)

Definition starts_with_sep (s : string) : bool :=
  match s with
  | String c _ => Ascii.eqb c "/"%char
  | EmptyString => false
  end.

Fixpoint ends_with_sep (s : string) : bool :=
  match s with
  | EmptyString => false
  | String c EmptyString => Ascii.eqb c "/"%char
  | String _ rest => ends_with_sep rest
  end.

Definition os_path_join (a b : string) : string :=
  if starts_with_sep b then b
  else if (String.length a =? 0)%nat || ends_with_sep a then (a ++ b)%string
  else (a ++ "/" ++ b)%string.

(** ** The disk and the device, as the program sees them *)

(** How a call of pygame fails: with [pygame.error] ([message] is what
    [pygame.get_error()] returns afterwards), or with another exception,
    known by its name. *)
Inductive failure : Type :=
| fails_with_pygame_error (message : string)
| fails_with (name : string).

Definition exception_of (f : failure) : exn :=
  match f with
  | fails_with_pygame_error message => pygame_error message
  | fails_with name => other_exception name
  end.

(** [main_dir] is [os.path.split(os.path.abspath(__file__))[0]].  Each of
    the three functions answers [None] when the call of pygame succeeds and
    [Some f] when it fails: [music_load_error path] for
    [pygame.mixer.music.load(path)], [music_play_error path start] for
    [pygame.mixer.music.play(0, start)] on the file loaded from [path],
    [image_load_error path] for [pygame.image.load(path)]. *)
Record disk : Type := {
  main_dir : string;
  music_load_error : string -> option failure;
  music_play_error : string -> Q -> option failure;
  image_load_error : string -> option failure
}.

(** * SoundObject.py *)

Module SoundObject.

(** *** [pygame.mixer.music]: one stream, zero or one file loaded *)

Inductive stream_status : Type := Silent | Playing | Paused.

Record mixer_music : Type := {
  loaded_file : option string;
  stream : stream_status;
  loops : Z;
  play_from : Q;       (* start position, in seconds *)
  played_ms : Z        (* what [get_pos()] reports; [-1] when not started *)
}.

Definition music_initial : mixer_music :=
  {| loaded_file := None; stream := Silent; loops := 0;
     play_from := 0%Q; played_ms := -1 |}.

(** [load]: a stream that was playing is stopped, the file takes the slot. *)
Definition music_load (filename : string) (m : mixer_music) : mixer_music :=
  {| loaded_file := Some filename; stream := Silent; loops := loops m;
     play_from := play_from m; played_ms := -1 |}.

Definition music_play (n : Z) (start : Q) (m : mixer_music) : mixer_music :=
  {| loaded_file := loaded_file m; stream := Playing; loops := n;
     play_from := start; played_ms := 0 |}.

Definition music_stop (m : mixer_music) : mixer_music :=
  {| loaded_file := loaded_file m; stream := Silent; loops := loops m;
     play_from := play_from m; played_ms := -1 |}.

Definition music_pause (m : mixer_music) : mixer_music :=
  {| loaded_file := loaded_file m;
     stream := match stream m with Playing => Paused | s => s end;
     loops := loops m; play_from := play_from m; played_ms := played_ms m |}.

Definition music_get_pos (m : mixer_music) : Z := played_ms m.

(** The device's own clock: between two calls of the program the stream
    moves on and [get_pos()] reports a new reading. *)
Definition music_elapse (t : Z) (m : mixer_music) : mixer_music :=
  {| loaded_file := loaded_file m; stream := stream m; loops := loops m;
     play_from := play_from m; played_ms := t |}.

(** A stream that is playing has played [dt] more milliseconds. *)
Definition music_advance (dt : Z) (m : mixer_music) : mixer_music :=
  match stream m with
  | Playing => music_elapse (played_ms m + dt) m
  | _ => m
  end.

(** *** The state the module's functions share *)

Record world : Type := {
  TARGET_DURATION : Z;          (* line 52; [-1] if no current sound *)
  music : mixer_music;
  stdout : list string          (* one entry per [print] call *)
}.

Definition world_initial : world :=
  {| TARGET_DURATION := -1; music := music_initial; stdout := [] |}.

Definition set_TARGET_DURATION (d : Z) (w : world) : world :=
  {| TARGET_DURATION := d; music := music w; stdout := stdout w |}.

Definition on_music (f : mixer_music -> mixer_music) (w : world) : world :=
  {| TARGET_DURATION := TARGET_DURATION w; music := f (music w);
     stdout := stdout w |}.

Definition print (line : string) (w : world) : world :=
  {| TARGET_DURATION := TARGET_DURATION w; music := music w;
     stdout := stdout w ++ [line] |}.

(** *** [stop_when_done] (lines 58-69) *)

Definition stop_when_done (w : world) : world :=
  if negb (TARGET_DURATION w =? -1) then
    if music_get_pos (music w) >? TARGET_DURATION w then
      set_TARGET_DURATION (-1) (on_music music_stop w)
    else w
  else w.

(** *** class [SoundObject] (lines 84-129) *)

Record SoundObject : Type := {
  _data_dir : string;
  _filename : string;
  _start_time : Z;
  _duration : Z
}.

Definition SoundObject_init (data_dir_in filename_in : string)
    (start_in duration_in : Z) : SoundObject :=
  {| _data_dir := data_dir_in; _filename := filename_in;
     _start_time := start_in; _duration := duration_in |}.

(** The path [play] hands to [pygame.mixer.music.load] (lines 103-107). *)
Definition sound_path (d : disk) (self : SoundObject) : string :=
  let data_dir := os_path_join (main_dir d) (_data_dir self) in
  os_path_join data_dir (_filename self).

(** [play] declares [global TARGET_DURATION] (line 97), so its last
    statement writes the module-level variable.  Only the [load] of line
    112 is inside the [try], and only [pygame.error] is caught there.  The
    division and the [play] of line 119 come after the load and outside the
    [try]: what they raise leaves the function with the file loaded and
    line 122 not reached. *)
Definition play (d : disk) (self : SoundObject) (w : world)
  : result unit * world :=
  let filename := sound_path d self in
  match music_load_error d filename with
  | Some (fails_with_pygame_error message) =>
      (Raise (SystemExit message),
       print ("Cannot load sound file: " ++ filename) w)
  | Some (fails_with name) => (Raise (other_exception name), w)
  | None =>
      let w1 := on_music (music_load filename) w in
      match py_truediv (_start_time self) 1000 with
      | Raise e => (Raise e, w1)
      | Return start =>
          match music_play_error d filename start with
          | Some f => (Raise (exception_of f), w1)
          | None =>
              let w2 := on_music (music_play 0 start) w1 in
              (Return tt, set_TARGET_DURATION (_duration self) w2)
          end
      end
  end.

(** [pause] has no [global] declaration: the assignment of line 129 binds a
    name local to the call, which is dropped when the call returns. *)
Definition pause (self : SoundObject) (w : world) : world :=
  let w1 := on_music music_pause w in
  let local_TARGET_DURATION := _duration self in
  w1.

(** *** What can happen between two [play] calls *)

Inductive idle_event : Type :=
| Tick                          (* the frame loop calls [stop_when_done] *)
| DeviceClock (t : Z)           (* the stream's elapsed time becomes [t] *)
| PauseCall (s : SoundObject).  (* some segment's [pause] is called *)

Definition idle_step (e : idle_event) (w : world) : world :=
  match e with
  | Tick => stop_when_done w
  | DeviceClock t => on_music (music_elapse t) w
  | PauseCall s => pause s w
  end.

Definition idle_run (es : list idle_event) (w : world) : world :=
  fold_left (fun acc e => idle_step e acc) es w.

End SoundObject.
(** ** Calls that may raise and that change the shared state *)

Definition M (A : Type) : Type :=
  SoundObject.world -> result A * SoundObject.world.

Definition ret {A : Type} (a : A) : M A := fun w => (Return a, w).

Definition bind {A B : Type} (m : M A) (f : A -> M B) : M B :=
  fun w =>
    match m w with
    | (Return a, w') => f a w'
    | (Raise e, w') => (Raise e, w')
    end.

Definition lift (f : SoundObject.world -> SoundObject.world) : M unit :=
  fun w => (Return tt, f w).

Declare Scope py_scope.
Delimit Scope py_scope with py.
Notation "x <- m ;; k" := (bind m (fun x => k))
  (at level 61, m at next level, right associativity) : py_scope.
Notation "m ;;; k" := (bind m (fun _ => k))
  (at level 61, right associativity) : py_scope.

(** * P3.py *)

Module P3.

Import SoundObject.
Local Open Scope py_scope.

Definition DATA_DIR : string := "data".
Definition S_FILE_FORWARD : string := "Forward.ogg".
Definition S_FILE_CH2 : string := "NormanChapter2Audio.ogg".
Definition S_FILE_NAVPROMPTS : string := "NavigationPrompts.ogg".

(** *** [load_image] (lines 42-62)

    The [colorkey] parameter is never read by the body and is left out.
    The [except] of line 54 catches [pygame.error] only. *)

Record Image : Type := {
  image_file : string;
  converted : bool               (* [image.convert()] was applied *)
}.

Definition image_path (d : disk) (name : string) : string :=
  let data_dir := os_path_join (main_dir d) DATA_DIR in
  os_path_join data_dir name.

Definition load_image (d : disk) (name : string) : M Image :=
  fun w =>
    let fullname := image_path d name in
    match image_load_error d fullname with
    | Some (fails_with_pygame_error message) =>
        (Raise (SystemExit message),
         print ("Cannot load image: " ++ fullname) w)
    | Some (fails_with name) => (Raise (other_exception name), w)
    | None =>
        let image := {| image_file := fullname; converted := false |} in
        let image := {| image_file := image_file image; converted := true |} in
        (Return image, w)
    end.

(** *** class [Arrow] (lines 67-116) *)

(** A drawing surface, known by its size; what is painted on it is not
    modelled. *)
Record Surface : Type := { surface_size : Z * Z }.

Record Arrow : Type := {
  _surface : Surface;
  _x : Z;
  _y : Z;                        (* the position that is drawn *)
  _top_y : Z;
  _bottom_y : Z;
  _num_lines : Z;
  _y_with_decimal : number;      (* the running total *)
  _movement_distance : Q         (* a float *)
}.

Definition Arrow_init (surface_in : Surface)
    (initial_x_pos initial_y_pos top_y bottom_y num_lines : Z)
  : result Arrow :=
  match py_truediv (bottom_y - top_y) num_lines with
  | Raise e => Raise e
  | Return distance =>
      Return {| _surface := surface_in;
                _x := initial_x_pos;
                _y := initial_y_pos;
                _top_y := top_y;
                _bottom_y := bottom_y;
                _num_lines := num_lines;
                _y_with_decimal := PyInt initial_y_pos;
                _movement_distance := distance |}
  end.

(** The two assignments that end a move: the float [total] becomes the
    running total and its rounding the position that is drawn. *)
Definition set_y (total : Q) (self : Arrow) : Arrow :=
  {| _surface := _surface self;
     _x := _x self;
     _y := py_round (PyFloat total);
     _top_y := _top_y self;
     _bottom_y := _bottom_y self;
     _num_lines := _num_lines self;
     _y_with_decimal := PyFloat total;
     _movement_distance := _movement_distance self |}.

Definition set_x (x : Z) (self : Arrow) : Arrow :=
  {| _surface := _surface self;
     _x := x;
     _y := _y self;
     _top_y := _top_y self;
     _bottom_y := _bottom_y self;
     _num_lines := _num_lines self;
     _y_with_decimal := _y_with_decimal self;
     _movement_distance := _movement_distance self |}.

(** [-=] on the running total: an int total is converted first
    ([OverflowError] if it is too large); a difference that is an infinity
    makes the [round] of line 103 raise [OverflowError].  The object is
    not followed past an exception. *)
Definition move_up (self : Arrow) : result Arrow :=
  if _y self >? _top_y self then
    match to_float (_y_with_decimal self) with
    | Raise e => Raise e
    | Return x =>
        match float_sub x (_movement_distance self) with
        | None => Raise OverflowError
        | Some total => Return (set_y total self)
        end
    end
  else Return self.

Definition move_down (self : Arrow) : result Arrow :=
  if _y self <? _bottom_y self then
    match to_float (_y_with_decimal self) with
    | Raise e => Raise e
    | Return x =>
        match float_add x (_movement_distance self) with
        | None => Raise OverflowError
        | Some total => Return (set_y total self)
        end
    end
  else Return self.

Definition toggle_left (self : Arrow) : Arrow := set_x (_x self - 400) self.
Definition toggle_right (self : Arrow) : Arrow := set_x (_x self + 400) self.

(** The five points of the polyline [draw] paints (lines 90-94). *)
Definition draw_points (self : Arrow) : list (Z * Z) :=
  [ (_x self + 15, _y self - 15);
    (_x self + 30, _y self);
    (_x self, _y self);
    (_x self + 30, _y self);
    (_x self + 15, _y self + 15) ].

(** Sequences of calls on one arrow. *)
Inductive arrow_call : Type := MoveUp | MoveDown | ToggleLeft | ToggleRight.

Definition call (c : arrow_call) (self : Arrow) : result Arrow :=
  match c with
  | MoveUp => move_up self
  | MoveDown => move_down self
  | ToggleLeft => Return (toggle_left self)
  | ToggleRight => Return (toggle_right self)
  end.

(** The calls of [cs] in order, up to the first that raises. *)
Fixpoint calls (cs : list arrow_call) (self : Arrow) : result Arrow :=
  match cs with
  | [] => Return self
  | c :: rest =>
      match call c self with
      | Return a => calls rest a
      | Raise e => Raise e
      end
  end.

(** Does the guard of the call let it through? *)
Definition taken (c : arrow_call) (self : Arrow) : bool :=
  match c with
  | MoveUp => _y self >? _top_y self
  | MoveDown => _y self <? _bottom_y self
  | ToggleLeft | ToggleRight => true
  end.

(** Is every call of [cs] that is made let through?  (After a call that
    raises none is made.) *)
Fixpoint all_taken (cs : list arrow_call) (self : Arrow) : bool :=
  match cs with
  | [] => true
  | c :: rest =>
      taken c self &&
      match call c self with
      | Return a => all_taken rest a
      | Raise _ => true
      end
  end.

Definition is_move (c d : arrow_call) : bool :=
  match c, d with
  | MoveUp, MoveUp | MoveDown, MoveDown => true
  | _, _ => false
  end.

Definition count_calls (c : arrow_call) (cs : list arrow_call) : Z :=
  Z.of_nat (List.length (filter (is_move c) cs)).

(** *** [main] (lines 223-356): what the keys do

    Painting (blits, text, the indicator panel, [arrow.draw()]) is left
    out; the rest of the loop is kept statement by statement. *)

Inductive key : Type :=
| K_SEMICOLON | K_a | K_j | K_d | K_k | K_f | K_l | K_s
| K_other (code : Z).

Inductive event : Type :=
| QUIT
| KEYDOWN (k : key)
| OTHER.

Definition forward_sound := SoundObject_init DATA_DIR S_FILE_FORWARD 500 750.
Definition backward_sound := SoundObject_init DATA_DIR S_FILE_FORWARD 1500 750.
Definition chapter2_sound := SoundObject_init DATA_DIR S_FILE_CH2 0 9999999.
Definition mmhelp1_sound :=
  SoundObject_init DATA_DIR S_FILE_NAVPROMPTS 24000 9000.
Definition mmhelp2_sound :=
  SoundObject_init DATA_DIR S_FILE_NAVPROMPTS 12600 10900.
Definition bookreader_sound :=
  SoundObject_init DATA_DIR S_FILE_NAVPROMPTS 8000 1500.
Definition headings_sound :=
  SoundObject_init DATA_DIR S_FILE_NAVPROMPTS 10000 2100.

Definition screen : Surface := {| surface_size := (842, 1376) |}.

Record main_state : Type := {
  arrow : Arrow;
  selected : bool;
  program_running : bool
}.

(** Lines 305-319. *)
Definition show_help (d : disk) (st : main_state) : M main_state :=
  if selected st then play d mmhelp1_sound ;;; ret st
  else play d mmhelp2_sound ;;; ret st.

(** Lines 323-330, and again 334-341. *)
Definition toggle_selection (d : disk) (st : main_state) : M main_state :=
  if selected st then
    let a := toggle_right (arrow st) in
    play d headings_sound ;;;
    ret {| arrow := a; selected := false;
           program_running := program_running st |}
  else
    let a := toggle_left (arrow st) in
    play d bookreader_sound ;;;
    ret {| arrow := a; selected := true;
           program_running := program_running st |}.

Definition stop_running (st : main_state) : main_state :=
  {| arrow := arrow st; selected := selected st; program_running := false |}.

(** The sound a key press asks for, if any. *)
Definition sound_of_key (k : key) (st : main_state) : option SoundObject :=
  match k with
  | K_SEMICOLON | K_a =>
      Some (if selected st then mmhelp1_sound else mmhelp2_sound)
  | K_j | K_d | K_k | K_f =>
      Some (if selected st then headings_sound else bookreader_sound)
  | _ => None
  end.

Definition handle_keydown (d : disk) (k : key) (st : main_state)
  : M main_state :=
  st1 <- match k with
         | K_SEMICOLON | K_a => show_help d st
         | _ => ret st
         end ;;
  match k with
  | K_j | K_d => toggle_selection d st1
  | K_k | K_f => toggle_selection d st1
  | K_l | K_s => ret (stop_running st1)
  | _ => ret st1
  end.

Definition handle_event (d : disk) (e : event) (st : main_state)
  : M main_state :=
  match e with
  | QUIT => ret (stop_running st)
  | KEYDOWN k => handle_keydown d k st
  | OTHER => ret st
  end.

Fixpoint handle_events (d : disk) (es : list event) (st : main_state)
  : M main_state :=
  match es with
  | [] => ret st
  | e :: rest => st' <- handle_event d e st ;; handle_events d rest st'
  end.

(** One pass of the [while] loop: the events [pygame.event.get()] returned
    and the time the stream played while [clock.tick(60)] waited. *)
Record frame : Type := {
  events : list event;
  played_since : Z
}.

(** The loop, observed for as many passes as [frames] has. *)
Fixpoint main_loop (d : disk) (frames : list frame) (st : main_state)
  : M main_state :=
  match frames with
  | [] => ret st
  | f :: rest =>
      if program_running st then
        lift (on_music (music_advance (played_since f))) ;;;
        st' <- handle_events d (events f) st ;;
        lift stop_when_done ;;;
        main_loop d rest st'
      else ret st
  end.

Definition main (d : disk) (frames : list frame) : M main_state :=
  page_1 <- load_image d "MainMenu.png" ;;
  match Arrow_init screen 10 506 887 (887 + 368) 12 with
  | Raise e => fun w => (Raise e, w)
  | Return a =>
      main_loop d frames
        {| arrow := a; selected := true; program_running := true |}
  end.

End P3.
(** * Sample inputs and predicates used in the statements *)

Module Samples.

Import SoundObject P3.
Local Open Scope string_scope.

(** An installation with every asset in place and a device that plays
    from any offset. *)
Definition disk_complete : disk :=
  {| main_dir := "/opt/book";
     music_load_error := fun _ => None;
     music_play_error := fun _ _ => None;
     image_load_error := fun _ => None |}.



(** Files that load, on a device that cannot start anywhere but at the
    beginning of a file. *)
Definition disk_no_seek : disk :=
  {| main_dir := "/opt/book";
     music_load_error := fun _ => None;
     music_play_error :=
       fun _ start =>
         if Qeq_bool start 0 then None
         else Some (fails_with_pygame_error
                     "Position not implemented for music type");
     image_load_error := fun _ => None |}.

(** A world in which a file is playing, [d] is armed and the device
    reports [t] elapsed milliseconds. *)
Definition world_playing (d t : Z) : world :=
  {| TARGET_DURATION := d;
     music := {| loaded_file := Some "/opt/book/data/Forward.ogg";
                 stream := Playing; loops := 0;
                 play_from := (1 # 2)%Q; played_ms := t |};
     stdout := [] |}.

End Samples.

(** ** Predicates on arrows *)

Module ArrowSpec.

Import P3.

(** The position that is drawn lies between the two bounds. *)
Definition within_bounds (a : Arrow) : Prop :=
  _top_y a <= _y a <= _bottom_y a.

(** The position that is drawn is the rounding of the running total. *)
Definition rounded_from_decimal (a : Arrow) : Prop :=
  _y a = py_round (_y_with_decimal a).

(** An arrow of modest size, laid out as the constructor does: the bounds
    lie within [-2^30 .. 2^30] and are not reversed, there is at least one
    line, and the step is the float the constructor computes. *)
Definition modest (a : Arrow) : Prop :=
  - 2 ^ 30 <= _top_y a /\
  _top_y a <= _bottom_y a /\
  _bottom_y a <= 2 ^ 30 /\
  0 < _num_lines a /\
  py_truediv (_bottom_y a - _top_y a) (_num_lines a)
    = Return (_movement_distance a).

(** The exact position of line [k], counted from the top bound. *)
Definition line_value (a : Arrow) (k : Z) : Q :=
  (inject_Z (_top_y a)
   + inject_Z k * (inject_Z (_bottom_y a - _top_y a)
                   / inject_Z (_num_lines a)))%Q.

(** The running total is within [err] of line [k]. *)
Definition near_line (a : Arrow) (k : Z) (err : Q) : Prop :=
  0 <= k <= _num_lines a /\
  (line_value a k - err <= number_value (_y_with_decimal a)
   /\ number_value (_y_with_decimal a) <= line_value a k + err)%Q.

(** The arrow follows line [k] within [err]: it is modest, its drawn
    position is the rounding of its total, and the total is near the line. *)
Definition tracking (a : Arrow) (k : Z) (err : Q) : Prop :=
  modest a /\ rounded_from_decimal a /\ near_line a k err.

(** The running total is no further than [2^30 + 2^31 + 2 + slack] from
    zero: where the totals of a modest arrow that starts within
    [-2^30 .. 2^30] stay. *)
Definition in_reach (a : Arrow) (slack : Q) : Prop :=
  (- inject_Z (2 ^ 30 + 2 ^ 31 + 2) - slack
     <= number_value (_y_with_decimal a)
   /\ number_value (_y_with_decimal a)
     <= inject_Z (2 ^ 30 + 2 ^ 31 + 2) + slack)%Q.

End ArrowSpec.

(** * P3.py, the indicator widgets (lines 121-220)

    [Indicator], [KeyDisplay] and [MainMenuKeys] paint text on the surface
    they were given.  The surface is one shared object (the screen); what
    has been painted on it is the list of [text_blit]s, oldest first, that
    every [draw] threads. *)

Module Paint.

(** [pygame.Color('white')], ['blue'] and ['red']. *)
Inductive Color : Type := white | blue | red.

(** One [self._surface.blit(text_img, (x, y))] of a rendered label. *)
Record text_blit : Type := {
  blit_label : string;
  blit_font_size : Z;
  blit_antialias : Z;
  blit_color : Color;
  blit_background : Color;
  blit_dest : Z * Z
}.

Definition canvas : Type := list text_blit.

End Paint.

Module Indicator.

Import Paint.

Record Indicator : Type := {
  _surface : P3.Surface;
  _text_label : string;
  _x_pos : Z;
  _y_pos : Z;
  _text_color : Color;
  _off_color : Color;
  _on_color : Color;
  _Font : Z;                     (* [pygame.font.Font(None, size)] *)
  _remaining_ON_ticks : Z;
  _ticks_in_flash : Z
}.

Definition Indicator_init (surface_in : P3.Surface) (text_label : string)
    (x_pos_in y_pos_in : Z) : Indicator :=
  {| _surface := surface_in;
     _text_label := text_label;
     _x_pos := x_pos_in;
     _y_pos := y_pos_in;
     _text_color := white;
     _off_color := blue;
     _on_color := red;
     _Font := 26;
     _remaining_ON_ticks := 0;
     _ticks_in_flash := 2 |}.

Definition set_remaining (n : Z) (self : Indicator) : Indicator :=
  {| _surface := _surface self;
     _text_label := _text_label self;
     _x_pos := _x_pos self;
     _y_pos := _y_pos self;
     _text_color := _text_color self;
     _off_color := _off_color self;
     _on_color := _on_color self;
     _Font := _Font self;
     _remaining_ON_ticks := n;
     _ticks_in_flash := _ticks_in_flash self |}.

Definition flash (self : Indicator) : Indicator :=
  set_remaining (_ticks_in_flash self) self.

Definition draw_text (self : Indicator) (input_color : Color) (cv : canvas)
  : canvas :=
  cv ++ [ {| blit_label := _text_label self;
             blit_font_size := _Font self;
             blit_antialias := 1;
             blit_color := _text_color self;
             blit_background := input_color;
             blit_dest := (_x_pos self, _y_pos self) |} ].

Definition draw (self : Indicator) (cv : canvas) : Indicator * canvas :=
  if _remaining_ON_ticks self >? 0 then
    let cv1 := draw_text self (_on_color self) cv in
    (set_remaining (_remaining_ON_ticks self - 1) self, cv1)
  else
    (self, draw_text self (_off_color self) cv).

(** [n] calls of [draw] in a row. *)
Fixpoint draws (n : nat) (self : Indicator) (cv : canvas)
  : Indicator * canvas :=
  match n with
  | O => (self, cv)
  | S m => let (self1, cv1) := draw self cv in draws m self1 cv1
  end.

(** Sequences of calls on one indicator. *)
Inductive indicator_call : Type := Flash | Draw.

Definition call (c : indicator_call) (st : Indicator * canvas)
  : Indicator * canvas :=
  match c with
  | Flash => (flash (fst st), snd st)
  | Draw => draw (fst st) (snd st)
  end.

Definition calls (cs : list indicator_call) (st : Indicator * canvas)
  : Indicator * canvas :=
  fold_left (fun acc c => call c acc) cs st.

End Indicator.

Module KeyDisplay.

Import Paint.

Record KeyDisplay : Type := {
  _surface : P3.Surface;
  _x_pos : Z;
  _y_pos : Z;
  _y_offset : Z;
  _UP_indicator : Indicator.Indicator;
  _DOWN_indicator : Indicator.Indicator
}.

Definition set_indicators (up down : Indicator.Indicator)
    (self : KeyDisplay) : KeyDisplay :=
  {| _surface := _surface self;
     _x_pos := _x_pos self;
     _y_pos := _y_pos self;
     _y_offset := _y_offset self;
     _UP_indicator := up;
     _DOWN_indicator := down |}.

Definition draw (self : KeyDisplay) (cv : canvas) : KeyDisplay * canvas :=
  let (up, cv1) := Indicator.draw (_UP_indicator self) cv in
  let (down, cv2) := Indicator.draw (_DOWN_indicator self) cv1 in
  (set_indicators up down self, cv2).

Definition KeyDisplay_init (surface_in : P3.Surface) (x_pos_in y_pos_in : Z)
    (cv : canvas) : KeyDisplay * canvas :=
  let y_offset := 30 in
  let self :=
    {| _surface := surface_in;
       _x_pos := x_pos_in;
       _y_pos := y_pos_in;
       _y_offset := y_offset;
       _UP_indicator :=
         Indicator.Indicator_init surface_in "UP" x_pos_in y_pos_in;
       _DOWN_indicator :=
         Indicator.Indicator_init surface_in "DOWN" x_pos_in
           (y_pos_in + y_offset) |} in
  draw self cv.

Definition UP (self : KeyDisplay) : KeyDisplay :=
  set_indicators (Indicator.flash (_UP_indicator self))
    (_DOWN_indicator self) self.

Definition DOWN (self : KeyDisplay) : KeyDisplay :=
  set_indicators (_UP_indicator self)
    (Indicator.flash (_DOWN_indicator self)) self.

Fixpoint draws (n : nat) (self : KeyDisplay) (cv : canvas)
  : KeyDisplay * canvas :=
  match n with
  | O => (self, cv)
  | S m => let (self1, cv1) := draw self cv in draws m self1 cv1
  end.

End KeyDisplay.

Module MainMenuKeys.

Import Paint.

Record MainMenuKeys : Type := {
  _surface : P3.Surface;
  _x_pos : Z;
  _y_pos : Z;
  _x_offset : Z;
  _UP_indicator : Indicator.Indicator;
  _DOWN_indicator : Indicator.Indicator
}.

Definition set_indicators (up down : Indicator.Indicator)
    (self : MainMenuKeys) : MainMenuKeys :=
  {| _surface := _surface self;
     _x_pos := _x_pos self;
     _y_pos := _y_pos self;
     _x_offset := _x_offset self;
     _UP_indicator := up;
     _DOWN_indicator := down |}.

Definition draw (self : MainMenuKeys) (cv : canvas)
  : MainMenuKeys * canvas :=
  let (up, cv1) := Indicator.draw (_UP_indicator self) cv in
  let (down, cv2) := Indicator.draw (_DOWN_indicator self) cv1 in
  (set_indicators up down self, cv2).

Definition MainMenuKeys_init (surface_in : P3.Surface)
    (x_pos_in y_pos_in : Z) (cv : canvas) : MainMenuKeys * canvas :=
  let x_offset := 400 in
  let self :=
    {| _surface := surface_in;
       _x_pos := x_pos_in;
       _y_pos := y_pos_in;
       _x_offset := x_offset;
       _UP_indicator :=
         Indicator.Indicator_init surface_in "Book Reader"
           x_pos_in y_pos_in;
       _DOWN_indicator :=
         Indicator.Indicator_init surface_in "Headings and Topic Sentences"
           (x_pos_in + x_offset) y_pos_in |} in
  draw self cv.

Definition UP (self : MainMenuKeys) : MainMenuKeys :=
  set_indicators (Indicator.flash (_UP_indicator self))
    (_DOWN_indicator self) self.

Definition DOWN (self : MainMenuKeys) : MainMenuKeys :=
  set_indicators (_UP_indicator self)
    (Indicator.flash (_DOWN_indicator self)) self.

Fixpoint draws (n : nat) (self : MainMenuKeys) (cv : canvas)
  : MainMenuKeys * canvas :=
  match n with
  | O => (self, cv)
  | S m => let (self1, cv1) := draw self cv in draws m self1 cv1
  end.

End MainMenuKeys.

(** ** Quantities read off a run *)

Module Runs.

Import SoundObject P3.

(** The step one call makes: [+1] for a [move_down] that its guard lets
    through, [-1] for such a [move_up], [0] otherwise. *)
Definition own_step (c : arrow_call) (self : Arrow) : Z :=
  match c with
  | MoveDown => if taken c self then 1 else 0
  | MoveUp => if taken c self then -1 else 0
  | ToggleLeft | ToggleRight => 0
  end.

(** The steps an arrow really made during [cs], added up. *)
Fixpoint net_steps (cs : list arrow_call) (self : Arrow) : Z :=
  match cs with
  | [] => 0
  | c :: rest =>
      own_step c self
      + match call c self with
        | Return a => net_steps rest a
        | Raise _ => 0
        end
  end.

(** The calls that touch the vertical position, and the horizontal shift
    the others add up to. *)
Definition is_vertical (c : arrow_call) : bool :=
  match c with
  | MoveUp | MoveDown => true
  | ToggleLeft | ToggleRight => false
  end.

Fixpoint x_shift (cs : list arrow_call) : Z :=
  match cs with
  | [] => 0
  | ToggleLeft :: rest => x_shift rest - 400
  | ToggleRight :: rest => x_shift rest + 400
  | _ :: rest => x_shift rest
  end.

(** The keys of lines 322 and 333. *)
Definition is_toggle_key (k : key) : bool :=
  match k with
  | K_j | K_d | K_k | K_f => true
  | _ => false
  end.

(** The events of lines 295 and 344. *)
Definition is_quit_event (e : event) : bool :=
  match e with
  | QUIT | KEYDOWN K_l | KEYDOWN K_s => true
  | _ => false
  end.

(** Events that reach no branch of the loop body that changes the state of
    [main]: the help keys, any other key, any other event. *)
Definition is_passive_event (e : event) : bool :=
  match e with
  | QUIT => false
  | KEYDOWN k =>
      match k with
      | K_j | K_d | K_k | K_f | K_l | K_s => false
      | _ => true
      end
  | OTHER => true
  end.

(** The arrow [main] builds (line 252) and the state the loop starts in. *)
Definition menu_arrow : Arrow :=
  {| _surface := screen; _x := 10; _y := 506;
     _top_y := 887; _bottom_y := 887 + 368; _num_lines := 12;
     _y_with_decimal := PyInt 506;
     _movement_distance :=
       (8631899285793451 # 281474976710656)%Q (* 30.666666666666668 *) |}.

Definition menu_start : main_state :=
  {| arrow := menu_arrow; selected := true; program_running := true |}.

(** Frames in which no event arrives; the time they take, added up. *)
Definition idle_frame (dt : Z) : frame :=
  {| events := []; played_since := dt |}.

Definition total_ms (dts : list Z) : Z := fold_right Z.add 0 dts.

(** The state a handled event leaves, when handling it raises nothing. *)
Definition toggled (st : main_state) : main_state :=
  if selected st then
    {| arrow := toggle_right (arrow st); selected := false;
       program_running := program_running st |}
  else
    {| arrow := toggle_left (arrow st); selected := true;
       program_running := program_running st |}.

Definition next_state (e : event) (st : main_state) : main_state :=
  match e with
  | QUIT => stop_running st
  | KEYDOWN k =>
      match k with
      | K_j | K_d | K_k | K_f => toggled st
      | K_l | K_s => stop_running st
      | _ => st
      end
  | OTHER => st
  end.

Definition next_states (es : list event) (st : main_state) : main_state :=
  fold_left (fun s e => next_state e s) es st.

(** The sound an event asks for, if any. *)
Definition sound_of_event (e : event) (st : main_state)
  : option SoundObject :=
  match e with
  | KEYDOWN k => sound_of_key k st
  | _ => None
  end.


(** An outcome that returns a value satisfying [P] with nothing printed,
    or raises [SystemExit] with one "Cannot load" line printed, or lets
    through, with nothing printed, an exception that pygame raised. *)
Definition quiet_or_fatal {A : Type} (P : A -> Prop) (w : world)
    (out : result A * world) : Prop :=
  match out with
  | (Return a, w') => P a /\ stdout w' = stdout w
  | (Raise (SystemExit message), w') =>
      exists path : string,
        stdout w' = stdout w ++ ["Cannot load image: " ++ path]%string \/
        stdout w' = stdout w ++ ["Cannot load sound file: " ++ path]%string
  | (Raise (pygame_error _), w') => stdout w' = stdout w
  | (Raise (other_exception _), w') => stdout w' = stdout w
  | (Raise ZeroDivisionError, _) => False
  | (Raise OverflowError, _) => False
  end.

(** The arrow of [main] points at the entry that is selected. *)
Definition menu_consistent (st : main_state) : Prop :=
  arrow st = set_x (if selected st then 10 else 410) menu_arrow.

(** Two frames: a toggle key among other events, then a help key. *)
Definition two_frames : list frame :=
  [ {| events := [KEYDOWN K_j; OTHER]; played_since := 16 |};
    {| events := [KEYDOWN K_SEMICOLON]; played_since := 17 |} ].

(** A label as the indicators paint it: size 26, white, on [background]. *)
Definition painted_label (text : string) (background : Paint.Color)
    (dest : Z * Z) : Paint.text_blit :=
  {| Paint.blit_label := text;
     Paint.blit_font_size := 26;
     Paint.blit_antialias := 1;
     Paint.blit_color := Paint.white;
     Paint.blit_background := background;
     Paint.blit_dest := dest |}.

(** A segment whose duration is the value the module keeps for "no current
    sound". *)
Definition unbounded_sound : SoundObject :=
  SoundObject_init DATA_DIR S_FILE_CH2 0 (-1).

End Runs.

(** * Properties *)

(** ** Facts about rounding *)

Section Rounding.

Local Open Scope Q_scope.

Lemma inject_Z_minus (a b : Z) : inject_Z (a - b) = inject_Z a - inject_Z b.
Proof.
  unfold Z.sub, Qminus. rewrite inject_Z_plus, inject_Z_opp. reflexivity.
Qed.

Lemma inject_Z_nonzero (n : Z) : n <> 0%Z -> ~ inject_Z n == 0.
Proof.
  intros N E. apply N. apply inject_Z_injective. exact E.
Qed.

Lemma round_half_even_comp (q r : Q) :
  q == r -> round_half_even q = round_half_even r.
Proof.
  intros E. unfold round_half_even.
  rewrite (Qfloor_comp _ _ E).
  assert (C : Qcompare (q - inject_Z (Qfloor r)) (1 # 2)
              = Qcompare (r - inject_Z (Qfloor r)) (1 # 2)).
  { apply Qcompare_comp; [rewrite E|]; reflexivity. }
  rewrite C. reflexivity.
Qed.

Lemma round_half_even_Z (z : Z) : round_half_even (inject_Z z) = z.
Proof.
  unfold round_half_even. rewrite Qfloor_Z.
  destruct (Qcompare_spec (inject_Z z - inject_Z z) (1 # 2)) as [A|A|A];
    [exfalso; lra | reflexivity | exfalso; lra].
Qed.

Lemma round_half_even_floor_bounds (q : Q) :
  (Qfloor q <= round_half_even q <= Qfloor q + 1)%Z.
Proof.
  unfold round_half_even.
  destruct (Qcompare (q - inject_Z (Qfloor q)) (1 # 2));
    [destruct (Z.even (Qfloor q))| |]; lia.
Qed.

Lemma round_half_even_le (q r : Q) :
  q <= r -> (round_half_even q <= round_half_even r)%Z.
Proof.
  intros L.
  pose proof (Qfloor_resp_le _ _ L) as F.
  destruct (Z.eq_dec (Qfloor q) (Qfloor r)) as [E|N].
  - unfold round_half_even. rewrite <- E.
    destruct (Qcompare_spec (q - inject_Z (Qfloor q)) (1 # 2)) as [A|A|A];
      destruct (Qcompare_spec (r - inject_Z (Qfloor q)) (1 # 2)) as [B|B|B];
      try destruct (Z.even (Qfloor q)); try lia; exfalso; lra.
  - pose proof (round_half_even_floor_bounds q).
    pose proof (round_half_even_floor_bounds r).
    lia.
Qed.

Lemma round_half_even_error (q : Q) :
  q - (1 # 2) <= inject_Z (round_half_even q) <= q + (1 # 2).
Proof.
  unfold round_half_even.
  pose proof (Qfloor_le q) as Lo. pose proof (Qlt_floor q) as Hi.
  rewrite inject_Z_plus in Hi. change (inject_Z 1) with 1 in Hi.
  destruct (Qcompare_spec (q - inject_Z (Qfloor q)) (1 # 2)) as [E|L|G];
    [destruct (Z.even (Qfloor q))| |];
    rewrite ?inject_Z_plus; change (inject_Z 1) with 1; split; lra.
Qed.

(** A rational less than one half away from an integer rounds to it. *)
Lemma round_half_even_near (q : Q) (z : Z) :
  inject_Z z - (1 # 2) < q -> q < inject_Z z + (1 # 2) ->
  round_half_even q = z.
Proof.
  intros Lo Hi.
  pose proof (round_half_even_error q) as (A & B).
  assert (L1 : inject_Z z - 1 < inject_Z (round_half_even q)) by lra.
  assert (L2 : inject_Z (round_half_even q) < inject_Z z + 1) by lra.
  change 1 with (inject_Z 1) in L1, L2.
  rewrite <- inject_Z_minus in L1. rewrite <- inject_Z_plus in L2.
  rewrite <- Zlt_Qlt in L1, L2. lia.
Qed.

Lemma pow2_pos (e : Z) : 0 < pow2 e.
Proof. apply Qpower_0_lt. reflexivity. Qed.

Lemma pow2_le (a b : Z) : (a <= b)%Z -> pow2 a <= pow2 b.
Proof.
  intros L. apply Qpower_le_compat_l; [exact L | discriminate].
Qed.

Lemma pow2_le_inv (a b : Z) : pow2 a <= pow2 b -> (a <= b)%Z.
Proof.
  intros L. apply (Qpower_le_compat_l_inv 2); [exact L | reflexivity].
Qed.

Lemma pow2_plus (a b : Z) : pow2 (a + b) == pow2 a * pow2 b.
Proof. apply Qpower_plus. discriminate. Qed.

Lemma pow2_nat (n : Z) : (0 <= n)%Z -> pow2 n == inject_Z (2 ^ n).
Proof.
  intros N. unfold pow2. rewrite Zpower_Qpower by exact N. reflexivity.
Qed.

Lemma Qabs_num_den (q : Q) :
  Qabs q == inject_Z (Z.abs (Qnum q)) / inject_Z (Z.pos (Qden q)).
Proof.
  destruct q as [n d]. unfold Qabs. cbn [Qnum Qden].
  rewrite (Qmake_Qdiv (Z.abs n) d). reflexivity.
Qed.

(** [ilog2] is below the binary logarithm. *)
Lemma ilog2_le (q : Q) : ~ q == 0 -> pow2 (ilog2 q) <= Qabs q.
Proof.
  intros NZ. unfold ilog2.
  set (n := Z.abs (Qnum q)). set (d := Z.pos (Qden q)).
  destruct (Qle_bool (pow2 (Z.log2 n - Z.log2 d)) (Qabs q)) eqn:B.
  - apply Qle_bool_iff. exact B.
  - assert (Npos : (0 < n)%Z).
    { subst n. destruct q as [[|p|p] dd]; cbn; try lia.
      exfalso. apply NZ. reflexivity. }
    assert (Dpos : (0 < d)%Z) by (subst d; lia).
    pose proof (Z.log2_spec n Npos) as (Ln & _).
    pose proof (Z.log2_spec d Dpos) as (_ & Ld).
    pose proof (Z.log2_nonneg n) as Nn. pose proof (Z.log2_nonneg d) as Nd.
    rewrite Qabs_num_den. fold n. fold d.
    replace (Z.log2 n - Z.log2 d - 1)%Z
      with (Z.log2 n + - (Z.succ (Z.log2 d)))%Z by lia.
    rewrite pow2_plus. unfold pow2 at 2. rewrite Qpower_opp.
    fold (pow2 (Z.succ (Z.log2 d))).
    rewrite !pow2_nat by lia.
    assert (A : inject_Z (2 ^ Z.log2 n) <= inject_Z n)
      by (rewrite <- Zle_Qle; exact Ln).
    assert (C : inject_Z d <= inject_Z (2 ^ Z.succ (Z.log2 d)))
      by (rewrite <- Zle_Qle; lia).
    assert (D0 : 0 < inject_Z d)
      by (change 0 with (inject_Z 0); rewrite <- Zlt_Qlt; exact Dpos).
    assert (P0 : 0 < inject_Z (2 ^ Z.log2 n)).
    { change 0 with (inject_Z 0). rewrite <- Zlt_Qlt.
      apply Z.pow_pos_nonneg; lia. }
    set (a := inject_Z (2 ^ Z.log2 n)) in *.
    set (b := inject_Z (2 ^ Z.succ (Z.log2 d))) in *.
    set (x := inject_Z n) in *. set (y := inject_Z d) in *.
    assert (B0 : 0 < b) by lra.
    apply Qle_shift_div_l; [exact D0|].
    apply (Qmult_le_r _ _ b); [exact B0|].
    assert (E : a * / b * y * b == a * y) by (field; lra).
    rewrite E. nra.
Qed.

Lemma Qred_inject_Z (z : Z) : Qred (inject_Z z) = inject_Z z.
Proof.
  unfold Qred, inject_Z.
  pose proof (Z.ggcd_gcd z 1) as G.
  pose proof (Z.ggcd_correct_divisors z 1) as D.
  destruct (Z.ggcd z 1) as (g, (a, b)). cbn [fst snd] in *.
  rewrite Z.gcd_1_r in G. subst g. destruct D as (Da & Db).
  rewrite Z.mul_1_l in Da, Db. subst a b. reflexivity.
Qed.

(** Rounding to a multiple of [2^e] is off by at most half of it. *)
Lemma round_to_multiple_error (q : Q) (e : Z) :
  q - pow2 e * (1 # 2)
    <= inject_Z (round_half_even (q / pow2 e)) * pow2 e
    <= q + pow2 e * (1 # 2).
Proof.
  pose proof (pow2_pos e) as P.
  pose proof (round_half_even_error (q / pow2 e)) as (Lo & Hi).
  assert (E : q == q / pow2 e * pow2 e) by (field; lra).
  set (x := q / pow2 e) in *. set (p := pow2 e) in *.
  set (m := inject_Z (round_half_even x)) in *.
  split; rewrite E; nra.
Qed.

Lemma exponent_bound (q : Q) (k : Z) :
  ~ q == 0 -> Qabs q <= pow2 k ->
  (- 1074 <= k - 52)%Z ->
  (Z.max (ilog2 q - 52) (- 1074) <= k - 52)%Z.
Proof.
  intros NZ B K.
  pose proof (ilog2_le q NZ) as L.
  assert (I : (ilog2 q <= k)%Z) by (apply pow2_le_inv; lra).
  lia.
Qed.

(** Up to [2^33] in magnitude a rounding to binary64 does not overflow and
    is off by at most [2^-20]. *)
Lemma round64_error (q : Q) :
  Qabs q <= pow2 33 ->
  exists r : Q,
    round64 q = Some r /\ q - pow2 (- 20) <= r <= q + pow2 (- 20).
Proof.
  intros B. unfold round64.
  destruct (Qeq_bool q 0) eqn:Z0.
  - apply Qeq_bool_eq in Z0. exists 0. split; [reflexivity|].
    pose proof (pow2_pos (- 20)). lra.
  - apply Qeq_bool_neq in Z0.
    pose proof (exponent_bound q 33 Z0 B ltac:(lia)) as E.
    set (e := Z.max (ilog2 q - 52) (- 1074)) in *.
    pose proof (round_to_multiple_error q e) as (Lo & Hi).
    pose proof (pow2_le e (- 19) ltac:(lia)) as P.
    assert (H19 : pow2 (- 19) * (1 # 2) == pow2 (- 20)) by reflexivity.
    pose proof (pow2_pos e) as P0.
    set (raw := inject_Z (round_half_even (q / pow2 e)) * pow2 e) in *.
    assert (R : Qred raw == raw) by apply Qred_correct.
    assert (Bq : - pow2 33 <= q <= pow2 33)
      by (apply Qabs_Qle_condition; exact B).
    assert (Lo' : q - pow2 (- 20) <= raw) by lra.
    assert (Hi' : raw <= q + pow2 (- 20)) by lra.
    assert (Small : pow2 33 + pow2 (- 20) < pow2 1024) by reflexivity.
    destruct (Qle_bool (pow2 1024) (Qabs (Qred raw))) eqn:O.
    + exfalso. apply Qle_bool_iff in O.
      assert (A : Qabs (Qred raw) <= pow2 33 + pow2 (- 20)).
      { apply Qabs_Qle_condition. rewrite R. lra. }
      lra.
    + exists (Qred raw). split; [reflexivity|]. rewrite R. lra.
Qed.

(** A float that is the rounding of a rational that is not negative is not
    negative. *)
Lemma round64_nonneg (q r : Q) : 0 <= q -> round64 q = Some r -> 0 <= r.
Proof.
  intros Q0. unfold round64.
  destruct (Qeq_bool q 0); [intros H; injection H as <-; lra|].
  set (e := Z.max (ilog2 q - 52) (- 1074)).
  destruct (Qle_bool _ _); [discriminate|].
  intros H. injection H as <-.
  pose proof (pow2_pos e) as P.
  assert (X : 0 <= q / pow2 e).
  { apply Qle_shift_div_l; [exact P | lra]. }
  pose proof (round_half_even_le 0 (q / pow2 e) X) as M.
  change (round_half_even 0) with 0%Z in M.
  rewrite Zle_Qle in M. change (inject_Z 0) with 0 in M.
  set (raw := inject_Z (round_half_even (q / pow2 e)) * pow2 e).
  pose proof (Qred_correct raw) as R.
  assert (N : 0 <= raw) by (unfold raw; nra).
  change (0 <= Qred raw). lra.
Qed.

(** An int of at most 52 bits is a float. *)
Lemma round64_int (z : Z) :
  (Z.abs z <= 2 ^ 52)%Z -> round64 (inject_Z z) = Some (inject_Z z).
Proof.
  intros B. unfold round64.
  destruct (Qeq_bool (inject_Z z) 0) eqn:Z0.
  - apply Qeq_bool_eq in Z0.
    assert (E : z = 0%Z) by (apply inject_Z_injective; exact Z0).
    subst z. reflexivity.
  - apply Qeq_bool_neq in Z0.
    assert (Bq : Qabs (inject_Z z) <= pow2 52).
    { apply Qabs_Qle_condition.
      change (pow2 52) with (inject_Z (2 ^ 52)).
      rewrite <- inject_Z_opp, <- !Zle_Qle. lia. }
    pose proof (exponent_bound (inject_Z z) 52 Z0 Bq ltac:(lia)) as E.
    set (e := Z.max (ilog2 (inject_Z z) - 52) (- 1074)) in *.
    assert (K : exists k, (0 <= k)%Z /\ e = (- k)%Z)
      by (exists (- e)%Z; lia).
    destruct K as (k & K0 & ->).
    assert (P : pow2 (- k) == / inject_Z (2 ^ k)).
    { unfold pow2. rewrite Qpower_opp. fold (pow2 k).
      rewrite (pow2_nat k K0). reflexivity. }
    assert (T0 : 0 < inject_Z (2 ^ k)).
    { change 0 with (inject_Z 0). rewrite <- Zlt_Qlt.
      apply Z.pow_pos_nonneg; lia. }
    assert (X : inject_Z z / pow2 (- k) == inject_Z (z * 2 ^ k)).
    { rewrite P, inject_Z_mult. field. lra. }
    rewrite (round_half_even_comp _ _ X), round_half_even_Z.
    assert (R : inject_Z (z * 2 ^ k) * pow2 (- k) == inject_Z z).
    { rewrite P, inject_Z_mult. field. lra. }
    rewrite (Qred_complete _ _ R), Qred_inject_Z.
    destruct (Qle_bool (pow2 1024) (Qabs (inject_Z z))) eqn:O;
      [|reflexivity].
    exfalso. apply Qle_bool_iff in O.
    assert (Small : pow2 52 < pow2 1024) by reflexivity. lra.
Qed.

End Rounding.
(** ** The watchdog and the armed duration *)

Section Watchdog.

Import SoundObject.

Lemma stop_when_done_disarmed (w : world) :
  TARGET_DURATION w = -1 -> stop_when_done w = w.
Proof.
  intros E. unfold stop_when_done. rewrite E. reflexivity.
Qed.

Lemma stop_when_done_early (w : world) :
  music_get_pos (music w) <= TARGET_DURATION w -> stop_when_done w = w.
Proof.
  intros L. unfold stop_when_done.
  destruct (negb (TARGET_DURATION w =? -1)); [|reflexivity].
  destruct (Z.gtb_spec (music_get_pos (music w)) (TARGET_DURATION w));
    [lia | reflexivity].
Qed.

Lemma stop_when_done_late (w : world) :
  TARGET_DURATION w <> -1 ->
  TARGET_DURATION w < music_get_pos (music w) ->
  stop_when_done w = set_TARGET_DURATION (-1) (on_music music_stop w).
Proof.
  intros N L. unfold stop_when_done.
  destruct (Z.eqb_spec (TARGET_DURATION w) (-1)) as [E|_]; [contradiction|].
  cbn [negb].
  destruct (Z.gtb_spec (music_get_pos (music w)) (TARGET_DURATION w));
    [reflexivity | lia].
Qed.

Lemma idle_step_keeps_disarmed (e : idle_event) (w : world) :
  TARGET_DURATION w = -1 -> TARGET_DURATION (idle_step e w) = -1.
Proof.
  intros E. destruct e as [|t|s]; cbn [idle_step].
  - rewrite stop_when_done_disarmed; assumption.
  - exact E.
  - exact E.
Qed.

Lemma idle_run_keeps_disarmed (es : list idle_event) :
  forall w, TARGET_DURATION w = -1 -> TARGET_DURATION (idle_run es w) = -1.
Proof.
  induction es as [|e es IH]; intros w E; cbn.
  - exact E.
  - apply IH, idle_step_keeps_disarmed, E.
Qed.

(** C1.  With a duration [d] other than the sentinel [-1] armed and the
    device reporting the elapsed time [t]: [stop_when_done] changes nothing
    when [t <= d]; when [t > d] it stops the stream and sets the armed
    duration to [-1].  From a state whose armed duration is [-1], whatever
    happens short of a [play] (ticks, the device's clock moving, [pause]
    calls), the duration stays [-1] and a tick changes nothing. *)
Theorem stop_when_done_watchdog (w : world) (d t : Z) :
  TARGET_DURATION w = d ->
  music_get_pos (music w) = t ->
  (d <> -1 -> t <= d -> stop_when_done w = w) /\
  (d <> -1 -> d < t ->
     stream (music (stop_when_done w)) = Silent /\
     TARGET_DURATION (stop_when_done w) = -1 /\
     loaded_file (music (stop_when_done w)) = loaded_file (music w) /\
     stdout (stop_when_done w) = stdout w) /\
  (d = -1 ->
     forall es : list idle_event,
       TARGET_DURATION (idle_run es w) = -1 /\
       stop_when_done (idle_run es w) = idle_run es w).
Proof.
  intros Hd Ht. subst d t. repeat split.
  - intros _ L. apply stop_when_done_early, L.
  - rewrite stop_when_done_late by assumption. reflexivity.
  - rewrite stop_when_done_late by assumption. reflexivity.
  - rewrite stop_when_done_late by assumption. reflexivity.
  - rewrite stop_when_done_late by assumption. reflexivity.
  - apply idle_run_keeps_disarmed; assumption.
  - apply stop_when_done_disarmed, idle_run_keeps_disarmed; assumption.
Qed.

End Watchdog.

Lemma stop_when_done_watchdog_witness :
  SoundObject.stop_when_done (Samples.world_playing 750 750)
    = Samples.world_playing 750 750 /\
  SoundObject.TARGET_DURATION
    (SoundObject.stop_when_done (Samples.world_playing 750 751)) = -1 /\
  SoundObject.stop_when_done
    (SoundObject.idle_run
       [SoundObject.DeviceClock 800; SoundObject.Tick]
       SoundObject.world_initial)
    = SoundObject.idle_run
        [SoundObject.DeviceClock 800; SoundObject.Tick]
        SoundObject.world_initial.
Proof.
  split; [|split].
  - apply (proj1 (stop_when_done_watchdog (Samples.world_playing 750 750)
                    750 750 eq_refl eq_refl)); [discriminate | lia].
  - apply (proj1 (proj2 (stop_when_done_watchdog
                           (Samples.world_playing 750 751)
                           750 751 eq_refl eq_refl))); [discriminate | lia].
  - apply (proj2 (proj2 (stop_when_done_watchdog SoundObject.world_initial
                           (-1) (-1) eq_refl eq_refl))). reflexivity.
Defined.

(** The scenario of the segment (500, 750) of [Forward.ogg]: played, then
    watched while the device's clock goes from 0 to 800 ms; the stream is
    still playing at 750 ms and is stopped at the first reading above. *)
Example forward_sound_scenario :
  let w0 := snd (SoundObject.play Samples.disk_complete P3.forward_sound
                   SoundObject.world_initial) in
  let at_ms t := SoundObject.idle_run
                   [SoundObject.DeviceClock t; SoundObject.Tick] w0 in
  SoundObject.TARGET_DURATION w0 = 750 /\
  SoundObject.stream (SoundObject.music (at_ms 0)) = SoundObject.Playing /\
  SoundObject.stream (SoundObject.music (at_ms 750)) = SoundObject.Playing /\
  SoundObject.stream (SoundObject.music (at_ms 751)) = SoundObject.Silent /\
  SoundObject.TARGET_DURATION (at_ms 751) = -1 /\
  SoundObject.stream (SoundObject.music (at_ms 800)) = SoundObject.Silent.
Proof. repeat split. Qed.

Section Playing.

Import SoundObject.

Variable d : disk.

Lemma play_returns (s : SoundObject) (w : world) (start : Q) :
  music_load_error d (sound_path d s) = None ->
  py_truediv (_start_time s) 1000 = Return start ->
  music_play_error d (sound_path d s) start = None ->
  play d s w =
    (Return tt,
     set_TARGET_DURATION (_duration s)
       (on_music (music_play 0 start)
          (on_music (music_load (sound_path d s)) w))).
Proof.
  intros L S P. unfold play. rewrite L, S, P. reflexivity.
Qed.

Lemma play_returns_inv (s : SoundObject) (w w' : world) :
  play d s w = (Return tt, w') ->
  exists start : Q,
    music_load_error d (sound_path d s) = None /\
    py_truediv (_start_time s) 1000 = Return start /\
    music_play_error d (sound_path d s) start = None /\
    w' = set_TARGET_DURATION (_duration s)
           (on_music (music_play 0 start)
              (on_music (music_load (sound_path d s)) w)).
Proof.
  unfold play.
  destruct (music_load_error d (sound_path d s)) as [[m|n]|];
    try discriminate.
  destruct (py_truediv (_start_time s) 1000) as [start|e];
    try discriminate.
  destruct (music_play_error d (sound_path d s) start) eqn:P;
    try discriminate.
  intros H. injection H as <-. exists start. repeat split. exact P.
Qed.

Lemma play_not_loaded (s : SoundObject) (w : world) (message : string) :
  music_load_error d (sound_path d s)
    = Some (fails_with_pygame_error message) ->
  play d s w =
    (Raise (SystemExit message),
     print ("Cannot load sound file: " ++ sound_path d s) w).
Proof.
  intros E. unfold play. rewrite E. reflexivity.
Qed.

(** C2.  For segments [A] and [B] and any prior state [w]: when [play A]
    returns it leaves the duration of [A] armed, and when [play B], called
    next, returns, the single armed duration is that of [B] and the device
    plays the file of [B]. *)
Theorem play_supersedes (A B : SoundObject) (w w1 w2 : world) :
  play d A w = (Return tt, w1) ->
  play d B w1 = (Return tt, w2) ->
  TARGET_DURATION w1 = _duration A /\
  TARGET_DURATION w2 = _duration B /\
  loaded_file (music w2) = Some (sound_path d B) /\
  stream (music w2) = Playing.
Proof.
  intros HA HB.
  apply play_returns_inv in HA. destruct HA as (sa & _ & _ & _ & ->).
  apply play_returns_inv in HB. destruct HB as (sb & _ & _ & _ & ->).
  repeat split.
Qed.

(** C7.  [pause], on any segment and in any state, leaves the module-level
    [TARGET_DURATION] as it was; the stream is not playing afterwards (a
    playing stream is paused), and the loaded file and the printed text are
    untouched. *)
Theorem pause_keeps_target (s : SoundObject) (w : world) :
  TARGET_DURATION (pause s w) = TARGET_DURATION w /\
  stream (music (pause s w)) <> Playing /\
  stream (music (pause s w))
    = match stream (music w) with Playing => Paused | st => st end /\
  loaded_file (music (pause s w)) = loaded_file (music w) /\
  played_ms (music (pause s w)) = played_ms (music w) /\
  stdout (pause s w) = stdout w.
Proof.
  repeat split.
  cbn. destruct (stream (music w)); discriminate.
Qed.

End Playing.

Lemma play_supersedes_witness :
  exists w1 w2 : SoundObject.world,
    SoundObject.play Samples.disk_complete P3.forward_sound
      (Samples.world_playing 9000 10) = (Return tt, w1) /\
    SoundObject.play Samples.disk_complete P3.chapter2_sound w1
      = (Return tt, w2) /\
    SoundObject.TARGET_DURATION w1 = 750 /\
    SoundObject.TARGET_DURATION w2 = 9999999 /\
    SoundObject.loaded_file (SoundObject.music w2)
      = Some "/opt/book/data/NormanChapter2Audio.ogg"%string /\
    SoundObject.stream (SoundObject.music w2) = SoundObject.Playing.
Proof.
  eexists. eexists.
  split; [reflexivity|]. split; [reflexivity|].
  exact (play_supersedes Samples.disk_complete P3.forward_sound
           P3.chapter2_sound (Samples.world_playing 9000 10) _ _
           eq_refl eq_refl).
Defined.

(** ** The arrow *)

Section ArrowFacts.

Import P3 ArrowSpec.

Lemma move_up_cases (a a' : Arrow) :
  move_up a = Return a' ->
  (_y a <= _top_y a /\ a' = a) \/
  (_top_y a < _y a /\
   exists x total : Q,
     to_float (_y_with_decimal a) = Return x /\
     float_sub x (_movement_distance a) = Some total /\
     a' = set_y total a).
Proof.
  unfold move_up.
  destruct (Z.gtb_spec (_y a) (_top_y a)) as [G|G].
  - destruct (to_float (_y_with_decimal a)) as [x|e]; [|discriminate].
    destruct (float_sub x (_movement_distance a)) as [total|] eqn:S;
      [|discriminate].
    intros H. injection H as <-. right. split; [exact G|].
    exists x, total. repeat split. exact S.
  - intros H. injection H as <-. left. split; [lia | reflexivity].
Qed.

Lemma move_down_cases (a a' : Arrow) :
  move_down a = Return a' ->
  (_bottom_y a <= _y a /\ a' = a) \/
  (_y a < _bottom_y a /\
   exists x total : Q,
     to_float (_y_with_decimal a) = Return x /\
     float_add x (_movement_distance a) = Some total /\
     a' = set_y total a).
Proof.
  unfold move_down.
  destruct (Z.ltb_spec (_y a) (_bottom_y a)) as [G|G].
  - destruct (to_float (_y_with_decimal a)) as [x|e]; [|discriminate].
    destruct (float_add x (_movement_distance a)) as [total|] eqn:S;
      [|discriminate].
    intros H. injection H as <-. right. split; [exact G|].
    exists x, total. repeat split. exact S.
  - intros H. injection H as <-. left. split; [lia | reflexivity].
Qed.

Lemma call_keeps_layout (c : arrow_call) (a a' : Arrow) :
  call c a = Return a' ->
  _top_y a' = _top_y a /\
  _bottom_y a' = _bottom_y a /\
  _num_lines a' = _num_lines a /\
  _movement_distance a' = _movement_distance a /\
  _surface a' = _surface a.
Proof.
  destruct c; cbn [call]; intros H.
  - apply move_up_cases in H.
    destruct H as [(_ & ->) | (_ & x & total & _ & _ & ->)]; repeat split.
  - apply move_down_cases in H.
    destruct H as [(_ & ->) | (_ & x & total & _ & _ & ->)]; repeat split.
  - injection H as <-. repeat split.
  - injection H as <-. repeat split.
Qed.


Lemma calls_cons_inv (c : arrow_call) (cs : list arrow_call)
    (a a' : Arrow) :
  calls (c :: cs) a = Return a' ->
  exists a1, call c a = Return a1 /\ calls cs a1 = Return a'.
Proof.
  cbn [calls]. destruct (call c a) as [a1|e]; [|discriminate].
  intros H. exists a1. split; [reflexivity | exact H].
Qed.

Lemma calls_cons (c : arrow_call) (cs : list arrow_call) (a a1 : Arrow) :
  call c a = Return a1 -> calls (c :: cs) a = calls cs a1.
Proof.
  intros H. cbn [calls]. rewrite H. reflexivity.
Qed.


Lemma calls_keep_layout (cs : list arrow_call) :
  forall a a',
    calls cs a = Return a' ->
    _top_y a' = _top_y a /\
    _bottom_y a' = _bottom_y a /\
    _num_lines a' = _num_lines a /\
    _movement_distance a' = _movement_distance a.
Proof.
  induction cs as [|c cs IH]; intros a a' H.
  - injection H as <-. repeat split.
  - apply calls_cons_inv in H. destruct H as (a1 & H1 & H2).
    destruct (IH a1 a' H2) as (-> & -> & -> & ->).
    destruct (call_keeps_layout c a a1 H1) as (-> & -> & -> & -> & _).
    repeat split.
Qed.

Lemma calls_snoc (cs : list arrow_call) (c : arrow_call) :
  forall a a1,
    calls cs a = Return a1 -> calls (cs ++ [c]) a = call c a1.
Proof.
  induction cs as [|c0 cs IH]; intros a a1 H.
  - injection H as <-. cbn. destruct (call c a); reflexivity.
  - apply calls_cons_inv in H. destruct H as (a0 & H0 & H1).
    cbn [app]. rewrite (calls_cons c0 _ a a0 H0). apply IH, H1.
Qed.


(** C6.  [move_up] on an arrow whose drawn position equals [_top_y]
    returns, and returns the arrow as it was: every field, the running
    total included, is unchanged. *)
Theorem move_up_at_top (a : Arrow) :
  _y a = _top_y a -> move_up a = Return a.
Proof.
  intros E. unfold move_up.
  destruct (Z.gtb_spec (_y a) (_top_y a)); [lia | reflexivity].
Qed.


(** C10.  [Arrow_init] raises [ZeroDivisionError] exactly when
    [num_lines = 0], and then builds no arrow; under the precondition
    [num_lines <> 0] that branch is not reached: the constructor returns the
    arrow whose step is the float nearest to
    [(bottom_y - top_y) / num_lines], unless that quotient is too large for
    a float, in which case the division raises [OverflowError]. *)
Theorem Arrow_init_needs_lines (surface_in : Surface)
    (x y top_y bottom_y num_lines : Z) :
  (num_lines = 0 ->
     Arrow_init surface_in x y top_y bottom_y num_lines
       = Raise ZeroDivisionError) /\
  (num_lines <> 0 ->
     Arrow_init surface_in x y top_y bottom_y num_lines
       <> Raise ZeroDivisionError /\
     match round64 (inject_Z (bottom_y - top_y) / inject_Z num_lines) with
     | Some step =>
         Arrow_init surface_in x y top_y bottom_y num_lines =
           Return {| _surface := surface_in; _x := x; _y := y;
                     _top_y := top_y; _bottom_y := bottom_y;
                     _num_lines := num_lines;
                     _y_with_decimal := PyInt y;
                     _movement_distance := step |}
     | None =>
         Arrow_init surface_in x y top_y bottom_y num_lines
           = Raise OverflowError
     end).
Proof.
  split.
  - intros ->. reflexivity.
  - intros N. unfold Arrow_init, py_truediv.
    destruct (Z.eqb_spec num_lines 0); [contradiction|].
    destruct (round64 _); split; try reflexivity; discriminate.
Qed.

End ArrowFacts.

(** *** Float arithmetic on arrows of modest size *)

Section ArrowArithmetic.

Import P3 ArrowSpec.
Local Open Scope Q_scope.

Lemma pow2_m20 : pow2 (- 20) == 1 # 1048576.
Proof. reflexivity. Qed.

Lemma pow2_33 : pow2 33 == 8589934592.
Proof. reflexivity. Qed.

Lemma py_round_error (n : number) :
  number_value n - (1 # 2) <= inject_Z (py_round n)
  /\ inject_Z (py_round n) <= number_value n + (1 # 2).
Proof.
  destruct n as [z|x]; cbn [py_round number_value].
  - split; lra.
  - apply round_half_even_error.
Qed.

Lemma py_round_between (n : number) (lo hi : Z) :
  inject_Z lo - (1 # 4) <= number_value n ->
  number_value n <= inject_Z hi + (1 # 4) ->
  (lo <= py_round n <= hi)%Z.
Proof.
  intros Lo Hi.
  destruct n as [z|x]; cbn [py_round number_value] in *.
  - assert (A : inject_Z lo - 1 < inject_Z z) by lra.
    assert (B : inject_Z z < inject_Z hi + 1) by lra.
    change 1 with (inject_Z 1) in A, B.
    rewrite <- inject_Z_minus in A. rewrite <- inject_Z_plus in B.
    rewrite <- Zlt_Qlt in A, B. lia.
  - split.
    + rewrite <- (round_half_even_near (inject_Z lo - (1 # 4)) lo)
        by lra.
      apply round_half_even_le, Lo.
    + rewrite <- (round_half_even_near (inject_Z hi + (1 # 4)) hi)
        by lra.
      apply round_half_even_le, Hi.
Qed.

Lemma to_float_value (n : number) :
  - pow2 33 <= number_value n -> number_value n <= pow2 33 ->
  to_float n = Return (number_value n).
Proof.
  intros Lo Hi. destruct n as [z|x]; [|reflexivity].
  cbn [to_float number_value] in *.
  rewrite round64_int; [reflexivity|].
  change (pow2 33) with (inject_Z (2 ^ 33)) in Lo, Hi.
  rewrite <- inject_Z_opp in Lo. rewrite <- Zle_Qle in Lo, Hi. lia.
Qed.

(** The step of a modest arrow: not negative, and within [2^-20] of the
    exact quotient, which is at most [2^31]. *)
Lemma modest_step (a : Arrow) :
  modest a ->
  0 <= inject_Z (_bottom_y a - _top_y a) / inject_Z (_num_lines a)
  /\ inject_Z (_bottom_y a - _top_y a) / inject_Z (_num_lines a)
     <= 2147483648
  /\ 0 <= _movement_distance a
  /\ inject_Z (_bottom_y a - _top_y a) / inject_Z (_num_lines a)
     - (1 # 1048576) <= _movement_distance a
  /\ _movement_distance a
     <= inject_Z (_bottom_y a - _top_y a) / inject_Z (_num_lines a)
        + (1 # 1048576).
Proof.
  intros (T & TB & B & N & D).
  unfold py_truediv in D.
  destruct (Z.eqb_spec (_num_lines a) 0) as [E|_]; [lia|].
  set (q := inject_Z (_bottom_y a - _top_y a) / inject_Z (_num_lines a))
    in *.
  assert (NQ : 1 <= inject_Z (_num_lines a)).
  { change 1 with (inject_Z 1). rewrite <- Zle_Qle. lia. }
  assert (S0 : 0 <= inject_Z (_bottom_y a - _top_y a)).
  { change 0 with (inject_Z 0). rewrite <- Zle_Qle. lia. }
  assert (S1 : inject_Z (_bottom_y a - _top_y a) <= 2147483648).
  { change 2147483648 with (inject_Z (2 ^ 31)). rewrite <- Zle_Qle. lia. }
  assert (P : q * inject_Z (_num_lines a)
              == inject_Z (_bottom_y a - _top_y a)).
  { unfold q. field. lra. }
  assert (Q0 : 0 <= q).
  { unfold q. apply Qle_shift_div_l; lra. }
  assert (Q1 : q <= 2147483648) by nra.
  assert (A : Qabs q <= pow2 33).
  { apply Qabs_Qle_condition. rewrite pow2_33. lra. }
  destruct (round64_error q A) as (r & R & Lo & Hi).
  rewrite R in D. injection D as <-.
  rewrite pow2_m20 in Lo, Hi.
  pose proof (round64_nonneg q r Q0 R).
  repeat split; assumption.
Qed.

(** A move that its guard lets through, on a modest arrow whose total is
    within [2^32] of zero: it returns, and the new total is within [2^-20]
    of the exact sum. *)
Lemma move_down_float (a : Arrow) :
  modest a ->
  - 4294967296 <= number_value (_y_with_decimal a) ->
  number_value (_y_with_decimal a) <= 4294967296 ->
  (_y a < _bottom_y a)%Z ->
  exists r : Q,
    move_down a = Return (set_y r a) /\
    number_value (_y_with_decimal a) + _movement_distance a - (1 # 1048576)
      <= r /\
    r <= number_value (_y_with_decimal a) + _movement_distance a
         + (1 # 1048576).
Proof.
  intros M Lo Hi G.
  destruct (modest_step a M) as (_ & _ & S0 & _ & S1).
  destruct (modest_step a M) as (_ & Q1 & _ & _ & _).
  set (x := number_value (_y_with_decimal a)) in *.
  set (s := _movement_distance a) in *.
  assert (A : Qabs (x + s) <= pow2 33).
  { apply Qabs_Qle_condition. rewrite pow2_33. lra. }
  destruct (round64_error (x + s) A) as (r & R & RLo & RHi).
  rewrite pow2_m20 in RLo, RHi.
  exists r. split; [|split; assumption].
  unfold move_down. destruct (Z.ltb_spec (_y a) (_bottom_y a)); [|lia].
  rewrite to_float_value by (rewrite pow2_33; fold x; lra).
  fold x. fold s. unfold float_add. rewrite R. reflexivity.
Qed.

Lemma move_up_float (a : Arrow) :
  modest a ->
  - 4294967296 <= number_value (_y_with_decimal a) ->
  number_value (_y_with_decimal a) <= 4294967296 ->
  (_top_y a < _y a)%Z ->
  exists r : Q,
    move_up a = Return (set_y r a) /\
    number_value (_y_with_decimal a) - _movement_distance a - (1 # 1048576)
      <= r /\
    r <= number_value (_y_with_decimal a) - _movement_distance a
         + (1 # 1048576).
Proof.
  intros M Lo Hi G.
  destruct (modest_step a M) as (_ & _ & S0 & _ & S1).
  destruct (modest_step a M) as (_ & Q1 & _ & _ & _).
  set (x := number_value (_y_with_decimal a)) in *.
  set (s := _movement_distance a) in *.
  assert (A : Qabs (x - s) <= pow2 33).
  { apply Qabs_Qle_condition. rewrite pow2_33. lra. }
  destruct (round64_error (x - s) A) as (r & R & RLo & RHi).
  rewrite pow2_m20 in RLo, RHi.
  exists r. split; [|split; assumption].
  unfold move_up. destruct (Z.gtb_spec (_y a) (_top_y a)); [|lia].
  rewrite to_float_value by (rewrite pow2_33; fold x; lra).
  fold x. fold s. unfold float_sub. rewrite R. reflexivity.
Qed.

End ArrowArithmetic.

(** *** Arrows that start on a line *)

Section ArrowTracking.

Import P3 ArrowSpec.
Local Open Scope Q_scope.

Lemma modest_num_lines (a : Arrow) :
  modest a -> 1 <= inject_Z (_num_lines a).
Proof.
  intros (_ & _ & _ & N & _).
  change 1 with (inject_Z 1). rewrite <- Zle_Qle. lia.
Qed.

Lemma modest_bounds (a : Arrow) :
  modest a ->
  - 1073741824 <= inject_Z (_top_y a)
  /\ inject_Z (_top_y a) <= inject_Z (_bottom_y a)
  /\ inject_Z (_bottom_y a) <= 1073741824.
Proof.
  intros (T & TB & B & _ & _).
  split; [|split].
  - change (- 1073741824) with (inject_Z (- 2 ^ 30)).
    rewrite <- Zle_Qle. exact T.
  - rewrite <- Zle_Qle. exact TB.
  - change 1073741824 with (inject_Z (2 ^ 30)).
    rewrite <- Zle_Qle. exact B.
Qed.

Lemma line_value_range (a : Arrow) (k : Z) :
  modest a -> (0 <= k <= _num_lines a)%Z ->
  inject_Z (_top_y a) <= line_value a k
  /\ line_value a k <= inject_Z (_bottom_y a).
Proof.
  intros M (K0 & KN).
  pose proof (modest_num_lines a M) as N1.
  destruct (modest_bounds a M) as (_ & TB & _).
  rewrite Zle_Qle in K0, KN. change (inject_Z 0) with 0 in K0.
  unfold line_value. rewrite inject_Z_minus.
  set (q := (inject_Z (_bottom_y a) - inject_Z (_top_y a))
            / inject_Z (_num_lines a)).
  assert (P : q * inject_Z (_num_lines a)
              == inject_Z (_bottom_y a) - inject_Z (_top_y a)).
  { unfold q. field. lra. }
  assert (Q0 : 0 <= q).
  { unfold q. apply Qle_shift_div_l; lra. }
  split; nra.
Qed.

Lemma line_value_next (a : Arrow) (k : Z) :
  line_value a (k + 1)
  == line_value a k
     + inject_Z (_bottom_y a - _top_y a) / inject_Z (_num_lines a).
Proof.
  unfold line_value. rewrite inject_Z_plus. change (inject_Z 1) with 1.
  ring.
Qed.

Lemma line_value_previous (a : Arrow) (k : Z) :
  line_value a (k - 1)
  == line_value a k
     - inject_Z (_bottom_y a - _top_y a) / inject_Z (_num_lines a).
Proof.
  unfold line_value. rewrite inject_Z_minus. change (inject_Z 1) with 1.
  ring.
Qed.

Lemma line_value_first (a : Arrow) : line_value a 0 == inject_Z (_top_y a).
Proof.
  unfold line_value. change (inject_Z 0) with 0. ring.
Qed.

Lemma line_value_last (a : Arrow) :
  modest a -> line_value a (_num_lines a) == inject_Z (_bottom_y a).
Proof.
  intros M. pose proof (modest_num_lines a M) as N1.
  unfold line_value. rewrite inject_Z_minus. field. lra.
Qed.

Lemma tracking_weaken (a : Arrow) (k : Z) (err err' : Q) :
  tracking a k err -> err <= err' -> tracking a k err'.
Proof.
  intros (M & R & K & Lo & Hi) L.
  split; [exact M|]. split; [exact R|]. split; [exact K|]. split; lra.
Qed.

Lemma tracking_bounds (a : Arrow) (k : Z) (err : Q) :
  tracking a k err -> err <= 1 # 8 ->
  (_top_y a <= _y a <= _bottom_y a)%Z.
Proof.
  intros (M & R & K & Lo & Hi) E.
  destruct (line_value_range a k M K) as (LLo & LHi).
  rewrite R. apply py_round_between; lra.
Qed.

Lemma tracking_last (a : Arrow) (err : Q) :
  tracking a (_num_lines a) err -> err <= 1 # 8 -> _y a = _bottom_y a.
Proof.
  intros (M & R & K & Lo & Hi) E.
  pose proof (line_value_last a M) as L.
  rewrite R.
  assert (B : (_bottom_y a <= py_round (_y_with_decimal a)
               <= _bottom_y a)%Z)
    by (apply py_round_between; lra).
  lia.
Qed.

Lemma tracking_first (a : Arrow) (err : Q) :
  tracking a 0 err -> err <= 1 # 8 -> _y a = _top_y a.
Proof.
  intros (M & R & K & Lo & Hi) E.
  pose proof (line_value_first a) as L.
  rewrite R.
  assert (B : (_top_y a <= py_round (_y_with_decimal a) <= _top_y a)%Z)
    by (apply py_round_between; lra).
  lia.
Qed.

Lemma tracking_total_small (a : Arrow) (k : Z) (err : Q) :
  tracking a k err -> err <= 1 # 8 ->
  - 4294967296 <= number_value (_y_with_decimal a)
  /\ number_value (_y_with_decimal a) <= 4294967296.
Proof.
  intros (M & R & K & Lo & Hi) E.
  destruct (line_value_range a k M K) as (LLo & LHi).
  destruct (modest_bounds a M) as (T & _ & B).
  split; lra.
Qed.

(** A [move_down] that is let through takes the arrow to the next line,
    and costs at most [2^-19] of precision. *)
Lemma tracking_down (a : Arrow) (k : Z) (err : Q) :
  tracking a k err -> err <= 1 # 8 -> (_y a < _bottom_y a)%Z ->
  exists a' : Arrow,
    move_down a = Return a' /\ tracking a' (k + 1) (err + (1 # 524288)).
Proof.
  intros T E G.
  assert (KN : k <> _num_lines a).
  { intros ->. pose proof (tracking_last a err T E). lia. }
  destruct (tracking_total_small a k err T E) as (XLo & XHi).
  destruct T as (M & R & K & Lo & Hi).
  destruct (move_down_float a M XLo XHi G) as (r & Mv & RLo & RHi).
  destruct (modest_step a M) as (_ & _ & _ & SLo & SHi).
  exists (set_y r a). split; [exact Mv|].
  split; [exact M|]. split; [reflexivity|].
  split; [cbn; lia|].
  change (line_value (set_y r a) (k + 1)) with (line_value a (k + 1)).
  cbn [number_value _y_with_decimal set_y].
  rewrite line_value_next. split; lra.
Qed.

Lemma tracking_up (a : Arrow) (k : Z) (err : Q) :
  tracking a k err -> err <= 1 # 8 -> (_top_y a < _y a)%Z ->
  exists a' : Arrow,
    move_up a = Return a' /\ tracking a' (k - 1) (err + (1 # 524288)).
Proof.
  intros T E G.
  assert (K0 : k <> 0%Z).
  { intros ->. pose proof (tracking_first a err T E). lia. }
  destruct (tracking_total_small a k err T E) as (XLo & XHi).
  destruct T as (M & R & K & Lo & Hi).
  destruct (move_up_float a M XLo XHi G) as (r & Mv & RLo & RHi).
  destruct (modest_step a M) as (_ & _ & _ & SLo & SHi).
  exists (set_y r a). split; [exact Mv|].
  split; [exact M|]. split; [reflexivity|].
  split; [cbn; lia|].
  change (line_value (set_y r a) (k - 1)) with (line_value a (k - 1)).
  cbn [number_value _y_with_decimal set_y].
  rewrite line_value_previous. split; lra.
Qed.

Lemma tracking_call (c : arrow_call) (a : Arrow) (k : Z) (err : Q) :
  tracking a k err -> 0 <= err -> err <= 1 # 8 ->
  exists (a' : Arrow) (k' : Z),
    call c a = Return a' /\ tracking a' k' (err + (1 # 524288)).
Proof.
  intros T E0 E.
  destruct c; cbn [call].
  - destruct (Z.lt_ge_cases (_top_y a) (_y a)) as [G|G].
    + destruct (tracking_up a k err T E G) as (a' & Mv & T').
      exists a', (k - 1)%Z. split; assumption.
    + exists a, k. split.
      * unfold move_up.
        destruct (Z.gtb_spec (_y a) (_top_y a)); [lia | reflexivity].
      * apply (tracking_weaken a k err); [exact T | lra].
  - destruct (Z.lt_ge_cases (_y a) (_bottom_y a)) as [G|G].
    + destruct (tracking_down a k err T E G) as (a' & Mv & T').
      exists a', (k + 1)%Z. split; assumption.
    + exists a, k. split.
      * unfold move_down.
        destruct (Z.ltb_spec (_y a) (_bottom_y a)); [lia | reflexivity].
      * apply (tracking_weaken a k err); [exact T | lra].
  - exists (toggle_left a), k. split; [reflexivity|].
    apply (tracking_weaken (toggle_left a) k err); [exact T | lra].
  - exists (toggle_right a), k. split; [reflexivity|].
    apply (tracking_weaken (toggle_right a) k err); [exact T | lra].
Qed.

Lemma length_cons_Q {A : Type} (x : A) (l : list A) :
  inject_Z (Z.of_nat (List.length (x :: l)))
  == inject_Z (Z.of_nat (List.length l)) + 1.
Proof.
  cbn [List.length]. rewrite Nat2Z.inj_succ. unfold Z.succ.
  rewrite inject_Z_plus. reflexivity.
Qed.

Lemma length_nonneg_Q {A : Type} (l : list A) :
  0 <= inject_Z (Z.of_nat (List.length l)).
Proof.
  change 0 with (inject_Z 0). rewrite <- Zle_Qle. lia.
Qed.

Lemma calls_keep_tracking (cs : list arrow_call) :
  forall (a : Arrow) (k : Z) (err : Q),
    tracking a k err -> 0 <= err ->
    err + inject_Z (Z.of_nat (List.length cs)) * (1 # 524288) <= 1 # 8 ->
    exists (a' : Arrow) (k' : Z),
      calls cs a = Return a' /\
      tracking a' k'
        (err + inject_Z (Z.of_nat (List.length cs)) * (1 # 524288)).
Proof.
  induction cs as [|c cs IH]; intros a k err T E0 E.
  - exists a, k. split; [reflexivity|].
    apply (tracking_weaken a k err); [exact T|].
    change (inject_Z (Z.of_nat (List.length (@nil arrow_call)))) with 0.
    lra.
  - pose proof (length_cons_Q c cs) as L.
    pose proof (length_nonneg_Q cs) as L0.
    set (n := inject_Z (Z.of_nat (List.length (c :: cs)))) in *.
    set (m := inject_Z (Z.of_nat (List.length cs))) in *.
    destruct (tracking_call c a k err T E0 ltac:(lra)) as (a1 & k1 & C & T1).
    destruct (IH a1 k1 (err + (1 # 524288)) T1 ltac:(lra))
      as (a' & k' & Cs & T'); [fold m; lra|].
    exists a', k'. split.
    + rewrite (calls_cons c cs a a1 C). exact Cs.
    + apply (tracking_weaken a' k' _ _ T'). fold m. lra.
Qed.

End ArrowTracking.

Section ArrowBounds.

Import P3 ArrowSpec.
Local Open Scope Q_scope.

Lemma Arrow_init_modest (surface_in : Surface)
    (x y top_y bottom_y num_lines : Z) :
  (- 2 ^ 30 <= top_y)%Z -> (top_y <= bottom_y)%Z ->
  (bottom_y <= 2 ^ 30)%Z -> (0 < num_lines)%Z ->
  exists a : Arrow,
    Arrow_init surface_in x y top_y bottom_y num_lines = Return a /\
    modest a /\
    _y a = y /\ _y_with_decimal a = PyInt y /\
    _top_y a = top_y /\ _bottom_y a = bottom_y /\
    _num_lines a = num_lines.
Proof.
  intros T TB B N.
  set (q := inject_Z (bottom_y - top_y) / inject_Z num_lines).
  assert (A : Qabs q <= pow2 33).
  { assert (NQ : 1 <= inject_Z num_lines)
      by (change 1 with (inject_Z 1); rewrite <- Zle_Qle; lia).
    assert (S0 : 0 <= inject_Z (bottom_y - top_y))
      by (change 0 with (inject_Z 0); rewrite <- Zle_Qle; lia).
    assert (S1 : inject_Z (bottom_y - top_y) <= 2147483648)
      by (change 2147483648 with (inject_Z (2 ^ 31));
          rewrite <- Zle_Qle; lia).
    assert (P : q * inject_Z num_lines == inject_Z (bottom_y - top_y))
      by (unfold q; field; lra).
    assert (Q0 : 0 <= q) by (unfold q; apply Qle_shift_div_l; lra).
    apply Qabs_Qle_condition. rewrite pow2_33. split; nra. }
  destruct (round64_error q A) as (r & R & _).
  assert (D : py_truediv (bottom_y - top_y) num_lines = Return r).
  { unfold py_truediv. destruct (Z.eqb_spec num_lines 0); [lia|].
    fold q. rewrite R. reflexivity. }
  eexists. split; [unfold Arrow_init; rewrite D; reflexivity|].
  split; [|repeat split].
  repeat split; assumption.
Qed.

(** C3, amended.  For an arrow built with its bounds within
    [-2^30 .. 2^30] and not reversed, at least one line, and its initial y
    on one of the line positions [top_y + k * (bottom_y - top_y) /
    num_lines] ([0 <= k <= num_lines], written without the division as
    [(y - top_y) * num_lines = k * (bottom_y - top_y)]): the constructor
    returns, the drawn position lies within [top_y .. bottom_y] after
    construction, and every sequence of at most 65536 calls returns with
    the drawn position within [top_y .. bottom_y]. *)
Theorem drawn_within_bounds (surface_in : Surface)
    (x y top_y bottom_y num_lines k : Z) (cs : list arrow_call) :
  (- 2 ^ 30 <= top_y)%Z ->
  (top_y <= bottom_y)%Z ->
  (bottom_y <= 2 ^ 30)%Z ->
  (0 < num_lines)%Z ->
  (0 <= k <= num_lines)%Z ->
  ((y - top_y) * num_lines = k * (bottom_y - top_y))%Z ->
  (Z.of_nat (List.length cs) <= 65536)%Z ->
  exists a a' : Arrow,
    Arrow_init surface_in x y top_y bottom_y num_lines = Return a /\
    (top_y <= _y a <= bottom_y)%Z /\
    calls cs a = Return a' /\
    (top_y <= _y a' <= bottom_y)%Z.
Proof.
  intros T TB B N K E L.
  destruct (Arrow_init_modest surface_in x y top_y bottom_y num_lines
              T TB B N) as (a & I & M & Y & Tot & At & Ab & An).
  assert (Tr : tracking a k 0).
  { split; [exact M|]. split; [unfold rounded_from_decimal;
                               rewrite Y, Tot; reflexivity|].
    split; [rewrite An; exact K|].
    assert (V : number_value (_y_with_decimal a) == line_value a k).
    { rewrite Tot. unfold line_value. rewrite At, Ab, An.
      cbn [number_value].
      assert (EQ : (inject_Z y - inject_Z top_y) * inject_Z num_lines
                   == inject_Z k * (inject_Z bottom_y - inject_Z top_y)).
      { rewrite <- !inject_Z_minus, <- !inject_Z_mult, E. reflexivity. }
      assert (NQ : 0 < inject_Z num_lines)
        by (change 0 with (inject_Z 0); rewrite <- Zlt_Qlt; exact N).
      rewrite inject_Z_minus.
      apply (Qmult_inj_r _ _ (inject_Z num_lines)); [lra|].
      transitivity
        (inject_Z top_y * inject_Z num_lines
         + inject_Z k * (inject_Z bottom_y - inject_Z top_y)).
      - lra.
      - field. lra. }
    split; lra. }
  assert (Len : inject_Z (Z.of_nat (List.length cs)) <= 65536).
  { change 65536 with (inject_Z 65536).
    rewrite <- Zle_Qle. exact L. }
  pose proof (length_nonneg_Q cs) as Len0.
  destruct (calls_keep_tracking cs a k 0 Tr ltac:(lra) ltac:(lra))
    as (a' & k' & Cs & Tr').
  exists a, a'. split; [exact I|].
  split; [rewrite <- At, <- Ab; apply (tracking_bounds a k 0 Tr); lra|].
  split; [exact Cs|].
  destruct (calls_keep_layout cs a a' Cs) as (At' & Ab' & _ & _).
  rewrite <- At, <- Ab, <- At', <- Ab'.
  apply (tracking_bounds a' k' _ Tr'). lra.
Qed.

Lemma move_downs_climb (a : Arrow) (j : nat) :
  tracking a 0 0 ->
  (Z.of_nat j <= _num_lines a)%Z -> (Z.of_nat j <= 65536)%Z ->
  exists (a' : Arrow) (k : Z),
    calls (repeat MoveDown j) a = Return a' /\
    tracking a' k (inject_Z (Z.of_nat j) * (1 # 524288)) /\
    (k = Z.of_nat j \/ _y a' = _bottom_y a').
Proof.
  intros T0. induction j as [|j IH]; intros J L.
  - exists a, 0%Z. split; [reflexivity|]. split; [|left; reflexivity].
    apply (tracking_weaken a 0 0 _ T0).
    change (inject_Z (Z.of_nat 0)) with 0. lra.
  - destruct IH as (a1 & k & C & T & D); [lia | lia |].
    assert (Jq : inject_Z (Z.of_nat (S j)) == inject_Z (Z.of_nat j) + 1).
    { rewrite Nat2Z.inj_succ. unfold Z.succ. rewrite inject_Z_plus.
      reflexivity. }
    assert (J0 : 0 <= inject_Z (Z.of_nat j))
      by (change 0 with (inject_Z 0); rewrite <- Zle_Qle; lia).
    assert (J1 : inject_Z (Z.of_nat j) <= 65535).
    { change 65535 with (inject_Z 65535).
      rewrite <- Zle_Qle. lia. }
    cbn [repeat]. rewrite repeat_cons, (calls_snoc _ MoveDown a a1 C).
    cbn [call].
    assert (E : inject_Z (Z.of_nat j) * (1 # 524288) <= 1 # 8) by lra.
    destruct (Z.lt_ge_cases (_y a1) (_bottom_y a1)) as [G|G].
    + destruct D as [-> | D]; [|lia].
      destruct (tracking_down a1 _ _ T E G) as (a2 & Mv & T2).
      exists a2, (Z.of_nat j + 1)%Z. split; [exact Mv|]. split.
      * apply (tracking_weaken a2 _ _ _ T2). lra.
      * left. lia.
    + pose proof (tracking_bounds a1 k _ T E) as (_ & Hi).
      exists a1, k. split.
      * unfold move_down.
        destruct (Z.ltb_spec (_y a1) (_bottom_y a1)); [lia | reflexivity].
      * split; [apply (tracking_weaken a1 k _ _ T); lra | right; lia].
Qed.

(** C4, amended.  For an arrow with its bounds within [-2^30 .. 2^30] and
    not reversed, between 1 and 65536 lines, the step the constructor
    computes for them, and both its drawn position and its running total at
    [_top_y]: exactly [_num_lines] calls of [move_down] all return, and
    after them the drawn position is [_bottom_y]. *)
Theorem move_down_reaches_bottom (a : Arrow) :
  (- 2 ^ 30 <= _top_y a)%Z ->
  (_top_y a <= _bottom_y a)%Z ->
  (_bottom_y a <= 2 ^ 30)%Z ->
  (0 < _num_lines a <= 65536)%Z ->
  py_truediv (_bottom_y a - _top_y a) (_num_lines a)
    = Return (_movement_distance a) ->
  _y a = _top_y a ->
  number_value (_y_with_decimal a) == inject_Z (_top_y a) ->
  exists a' : Arrow,
    calls (repeat MoveDown (Z.to_nat (_num_lines a))) a = Return a' /\
    _y a' = _bottom_y a.
Proof.
  intros T TB B (N & NL) S Y F.
  assert (M : modest a) by (repeat split; assumption).
  assert (R : rounded_from_decimal a).
  { unfold rounded_from_decimal. rewrite Y.
    assert (Bt : (_top_y a <= py_round (_y_with_decimal a) <= _top_y a)%Z)
      by (apply py_round_between; lra).
    lia. }
  assert (T0 : tracking a 0 0).
  { split; [exact M|]. split; [exact R|]. split; [lia|].
    pose proof (line_value_first a). split; lra. }
  destruct (move_downs_climb a (Z.to_nat (_num_lines a)) T0)
    as (a' & k & C & T' & D); [lia | lia |].
  exists a'. split; [exact C|].
  destruct (calls_keep_layout _ a a' C) as (_ & Ab & An & _).
  assert (E : inject_Z (Z.of_nat (Z.to_nat (_num_lines a))) * (1 # 524288)
              <= 1 # 8).
  { rewrite Z2Nat.id by lia.
    assert (inject_Z (_num_lines a) <= 65536).
    { change 65536 with (inject_Z 65536). rewrite <- Zle_Qle. exact NL. }
    lra. }
  destruct D as [-> | D].
  - rewrite <- Ab. rewrite Z2Nat.id in T', E by lia.
    rewrite <- An in T' at 1.
    exact (tracking_last a' _ T' E).
  - rewrite <- Ab. exact D.
Qed.

End ArrowBounds.

(** *** Moves from any position of a modest arrow *)

Section ArrowDrift.

Import P3 ArrowSpec Runs.
Local Open Scope Q_scope.

Lemma in_reach_small (a : Arrow) (slack : Q) :
  in_reach a slack -> slack <= 1 # 8 ->
  - 4294967296 <= number_value (_y_with_decimal a)
  /\ number_value (_y_with_decimal a) <= 4294967296.
Proof.
  unfold in_reach.
  change (inject_Z (2 ^ 30 + 2 ^ 31 + 2)) with 3221225474.
  intros (Lo & Hi) S. split; lra.
Qed.

Lemma less_than_int (y b : Z) : (y < b)%Z -> inject_Z y <= inject_Z b - 1.
Proof.
  intros L. change 1 with (inject_Z 1).
  rewrite <- inject_Z_minus, <- Zle_Qle. lia.
Qed.

(** One call: it returns, the total moves by the step the call makes
    within [2^-20], and stays in reach. *)
Lemma drift_call (c : arrow_call) (a : Arrow) (slack : Q) :
  modest a -> rounded_from_decimal a -> in_reach a slack ->
  0 <= slack -> slack <= 1 # 16 ->
  exists a' : Arrow,
    call c a = Return a' /\
    rounded_from_decimal a' /\
    in_reach a' (slack + (1 # 1048576)) /\
    number_value (_y_with_decimal a)
      + inject_Z (own_step c a) * _movement_distance a - (1 # 1048576)
      <= number_value (_y_with_decimal a') /\
    number_value (_y_with_decimal a')
      <= number_value (_y_with_decimal a)
         + inject_Z (own_step c a) * _movement_distance a + (1 # 1048576).
Proof.
  intros M R I S0 S1.
  destruct (in_reach_small a slack I ltac:(lra)) as (XLo & XHi).
  destruct (modest_step a M) as (_ & Q1 & SS0 & _ & SS1).
  destruct (modest_bounds a M) as (T & _ & B).
  pose proof (py_round_error (_y_with_decimal a)) as (YLo & YHi).
  rewrite <- R in YLo, YHi.
  unfold in_reach in *.
  change (inject_Z (2 ^ 30 + 2 ^ 31 + 2)) with 3221225474 in *.
  destruct I as (ILo & IHi).
  set (x := number_value (_y_with_decimal a)) in *.
  set (s := _movement_distance a) in *.
  destruct c; cbn [call own_step taken].
  - destruct (Z.gtb_spec (_y a) (_top_y a)) as [G|G].
    + destruct (move_up_float a M XLo XHi G) as (r & Mv & RLo & RHi).
      fold x in RLo, RHi. fold s in RLo, RHi.
      pose proof (less_than_int _ _ G) as GQ.
      exists (set_y r a). split; [exact Mv|]. split; [reflexivity|].
      cbn [number_value _y_with_decimal set_y].
      change (inject_Z (-1)) with (- (1)).
      repeat split; lra.
    + exists a. split.
      * unfold move_up.
        destruct (Z.gtb_spec (_y a) (_top_y a)); [lia | reflexivity].
      * split; [exact R|]. fold x. change (inject_Z 0) with 0.
        repeat split; lra.
  - destruct (Z.ltb_spec (_y a) (_bottom_y a)) as [G|G].
    + destruct (move_down_float a M XLo XHi G) as (r & Mv & RLo & RHi).
      fold x in RLo, RHi. fold s in RLo, RHi.
      pose proof (less_than_int _ _ G) as GQ.
      exists (set_y r a). split; [exact Mv|]. split; [reflexivity|].
      cbn [number_value _y_with_decimal set_y].
      change (inject_Z 1) with 1.
      repeat split; lra.
    + exists a. split.
      * unfold move_down.
        destruct (Z.ltb_spec (_y a) (_bottom_y a)); [lia | reflexivity].
      * split; [exact R|]. fold x. change (inject_Z 0) with 0.
        repeat split; lra.
  - exists (toggle_left a). split; [reflexivity|]. split; [exact R|].
    cbn [number_value _y_with_decimal toggle_left set_x]. fold x.
    change (inject_Z 0) with 0. repeat split; lra.
  - exists (toggle_right a). split; [reflexivity|]. split; [exact R|].
    cbn [number_value _y_with_decimal toggle_right set_x]. fold x.
    change (inject_Z 0) with 0. repeat split; lra.
Qed.

Lemma call_keeps_modest (c : arrow_call) (a a' : Arrow) :
  modest a -> call c a = Return a' -> modest a'.
Proof.
  intros M C. unfold modest.
  destruct (call_keeps_layout c a a' C) as (-> & -> & -> & -> & _).
  exact M.
Qed.

(** A sequence of calls: all return, and the total ends within
    [2^-20] per call of where the steps made, each exactly one step long,
    would take it. *)
Lemma drift_calls (cs : list arrow_call) :
  forall (a : Arrow) (slack : Q),
    modest a -> rounded_from_decimal a -> in_reach a slack ->
    0 <= slack ->
    slack + inject_Z (Z.of_nat (List.length cs)) * (1 # 1048576)
      <= 1 # 16 ->
    exists a' : Arrow,
      calls cs a = Return a' /\
      rounded_from_decimal a' /\
      number_value (_y_with_decimal a)
        + inject_Z (net_steps cs a) * _movement_distance a
        - inject_Z (Z.of_nat (List.length cs)) * (1 # 1048576)
        <= number_value (_y_with_decimal a') /\
      number_value (_y_with_decimal a')
        <= number_value (_y_with_decimal a)
           + inject_Z (net_steps cs a) * _movement_distance a
           + inject_Z (Z.of_nat (List.length cs)) * (1 # 1048576).
Proof.
  induction cs as [|c cs IH]; intros a slack M R I S0 S1.
  - exists a. split; [reflexivity|]. split; [exact R|].
    cbn [net_steps]. change (inject_Z 0) with 0.
    change (inject_Z (Z.of_nat (List.length (@nil arrow_call)))) with 0.
    split; lra.
  - pose proof (length_cons_Q c cs) as L.
    pose proof (length_nonneg_Q cs) as L0.
    set (n := inject_Z (Z.of_nat (List.length (c :: cs)))) in *.
    set (m := inject_Z (Z.of_nat (List.length cs))) in *.
    destruct (drift_call c a slack M R I S0 ltac:(lra))
      as (a1 & C & R1 & I1 & Lo1 & Hi1).
    pose proof (call_keeps_modest c a a1 M C) as M1.
    destruct (IH a1 (slack + (1 # 1048576)) M1 R1 I1 ltac:(lra))
      as (a' & Cs & R' & Lo' & Hi'); [fold m; lra|].
    fold m in Lo', Hi'.
    destruct (call_keeps_layout c a a1 C) as (_ & _ & _ & S & _).
    rewrite S in Lo', Hi'.
    exists a'. split; [rewrite (calls_cons c cs a a1 C); exact Cs|].
    split; [exact R'|].
    cbn [net_steps]. rewrite C. rewrite inject_Z_plus.
    set (x := number_value (_y_with_decimal a)) in *.
    set (x1 := number_value (_y_with_decimal a1)) in *.
    set (x' := number_value (_y_with_decimal a')) in *.
    set (s := _movement_distance a) in *.
    set (o := inject_Z (own_step c a)) in *.
    set (r := inject_Z (net_steps cs a1)) in *.
    assert (E : (o + r) * s == o * s + r * s) by ring.
    rewrite E. set (os := o * s) in *. set (rs := r * s) in *.
    split; lra.
Qed.

Lemma count_calls_cons (c x : arrow_call) (cs : list arrow_call) :
  count_calls c (x :: cs)
    = ((if is_move c x then 1 else 0) + count_calls c cs)%Z.
Proof.
  unfold count_calls. cbn [filter].
  destruct (is_move c x); cbn [List.length]; lia.
Qed.

(** When every call is let through, the steps made are the [move_down]
    calls minus the [move_up] calls. *)
Lemma all_taken_net (cs : list arrow_call) :
  forall a a' : Arrow,
    calls cs a = Return a' ->
    all_taken cs a = true ->
    net_steps cs a
      = (count_calls MoveDown cs - count_calls MoveUp cs)%Z.
Proof.
  induction cs as [|c cs IH]; intros a a' C T.
  - reflexivity.
  - apply calls_cons_inv in C. destruct C as (a1 & C1 & C2).
    cbn [all_taken net_steps] in *. rewrite C1 in *.
    apply andb_true_iff in T. destruct T as (Tc & Tcs).
    rewrite (IH a1 a' C2 Tcs), !count_calls_cons.
    unfold own_step. rewrite Tc.
    destruct c; cbn [is_move]; lia.
Qed.

Lemma start_in_reach (a : Arrow) :
  rounded_from_decimal a ->
  (- 2 ^ 30 <= _y a <= 2 ^ 30)%Z ->
  in_reach a 0.
Proof.
  intros R (Lo & Hi).
  pose proof (py_round_error (_y_with_decimal a)) as (YLo & YHi).
  rewrite <- R in YLo, YHi.
  rewrite Zle_Qle in Lo, Hi.
  change (inject_Z (- 2 ^ 30)) with (- 1073741824) in Lo.
  change (inject_Z (2 ^ 30)) with 1073741824 in Hi.
  unfold in_reach.
  change (inject_Z (2 ^ 30 + 2 ^ 31 + 2)) with 3221225474.
  split; lra.
Qed.

Lemma length_bound_Q (cs : list arrow_call) :
  (Z.of_nat (List.length cs) <= 65536)%Z ->
  inject_Z (Z.of_nat (List.length cs)) * (1 # 1048576) <= 1 # 16.
Proof.
  intros L. rewrite Zle_Qle in L.
  change (inject_Z 65536) with 65536 in L. lra.
Qed.

(** C5, amended.  For an arrow state with its bounds within
    [-2^30 .. 2^30] and not reversed, at least one line, the step the
    constructor computes for them, a drawn position that is the rounding of
    the running total and lies within [-2^30 .. 2^30]; and for a sequence
    of at most 65536 calls with as many [move_up] as [move_down] in which
    no move is held back by its guard (each [move_up] is made with the
    drawn position above [_top_y], each [move_down] with it below
    [_bottom_y]): every call returns, and the final drawn position differs
    from the starting one by at most 1. *)
Theorem paired_moves_return (a : Arrow) (cs : list arrow_call) :
  (- 2 ^ 30 <= _top_y a)%Z ->
  (_top_y a <= _bottom_y a)%Z ->
  (_bottom_y a <= 2 ^ 30)%Z ->
  (0 < _num_lines a)%Z ->
  py_truediv (_bottom_y a - _top_y a) (_num_lines a)
    = Return (_movement_distance a) ->
  _y a = py_round (_y_with_decimal a) ->
  (- 2 ^ 30 <= _y a <= 2 ^ 30)%Z ->
  (Z.of_nat (List.length cs) <= 65536)%Z ->
  count_calls MoveUp cs = count_calls MoveDown cs ->
  all_taken cs a = true ->
  exists a' : Arrow,
    calls cs a = Return a' /\ (Z.abs (_y a' - _y a) <= 1)%Z.
Proof.
  intros T TB B N S R Y L C A.
  assert (M : modest a) by (repeat split; assumption).
  pose proof (length_bound_Q cs L) as LQ.
  destruct (drift_calls cs a 0 M R (start_in_reach a R Y)
              ltac:(lra) ltac:(lra)) as (a' & Cs & R' & Lo & Hi).
  exists a'. split; [exact Cs|].
  rewrite (all_taken_net cs a a' Cs A), C, Z.sub_diag in Lo, Hi.
  change (inject_Z 0) with 0 in Lo, Hi.
  pose proof (py_round_error (_y_with_decimal a)) as (YLo & YHi).
  pose proof (py_round_error (_y_with_decimal a')) as (YLo' & YHi').
  rewrite <- R in YLo, YHi. rewrite <- R' in YLo', YHi'.
  assert (U : inject_Z (_y a') - inject_Z (_y a) < 2) by lra.
  assert (V : inject_Z (_y a) - inject_Z (_y a') < 2) by lra.
  change 2 with (inject_Z 2) in U, V.
  rewrite <- inject_Z_minus, <- Zlt_Qlt in U, V. lia.
Qed.

End ArrowDrift.

(** *** Concrete arrows *)

(** The arrow of [main] (line 252), as built: its step is the float
    30.666666666666668. *)
Example main_arrow :
  P3.Arrow_init P3.screen 10 506 887 (887 + 368) 12 =
    Return {| P3._surface := P3.screen; P3._x := 10; P3._y := 506;
              P3._top_y := 887; P3._bottom_y := 1255; P3._num_lines := 12;
              P3._y_with_decimal := PyInt 506;
              P3._movement_distance :=
                (8631899285793451 # 281474976710656)%Q |}.
Proof. reflexivity. Qed.

(** Rounding shows in the drawn position: with 25 units in 12 lines the
    sixth line is at 12.5, the float total after six steps is just above
    it, and the arrow is drawn at 13. *)
Example sixth_line_of_twelve :
  exists a a' : P3.Arrow,
    P3.Arrow_init P3.screen 0 0 0 25 12 = Return a /\
    P3.calls (repeat P3.MoveDown 6) a = Return a' /\
    P3._y_with_decimal a'
      = PyFloat (7036874417766401 # 562949953421312)%Q /\
    P3._y a' = 13.
Proof.
  eexists. eexists. split; [vm_compute; reflexivity|].
  split; [vm_compute; reflexivity|]. split; reflexivity.
Qed.

(** Past [2^53] the floats are further apart than the ints.  With the
    bottom bound at [2^53 + 1] and one line the step is [2^53]: the first
    [move_down] stops one short of the bound, the second is let through
    and draws the arrow at [2^54]. *)
Example huge_arrow_overshoots :
  exists a a1 a2 : P3.Arrow,
    P3.Arrow_init P3.screen 10 0 0 (2 ^ 53 + 1) 1 = Return a /\
    P3.move_down a = Return a1 /\ P3._y a1 = 2 ^ 53 /\
    P3.move_down a1 = Return a2 /\ P3._y a2 = 2 ^ 54 /\
    P3._bottom_y a2 < P3._y a2.
Proof.
  eexists. eexists. eexists. split; [vm_compute; reflexivity|].
  split; [vm_compute; reflexivity|]. split; [reflexivity|].
  split; [vm_compute; reflexivity|]. split; reflexivity.
Qed.

(** The same between [2^52] and [2^53], where the floats are the ints: two
    steps of 1.5 from [2^52] are each rounded up, and the arrow is drawn at
    [2^52 + 4], past the bottom bound [2^52 + 3]. *)
Example large_arrow_overshoots :
  exists a a' : P3.Arrow,
    P3.Arrow_init P3.screen 10 (2 ^ 52) (2 ^ 52) (2 ^ 52 + 3) 2
      = Return a /\
    P3._movement_distance a = (3 # 2)%Q /\
    P3.calls [P3.MoveDown; P3.MoveDown] a = Return a' /\
    P3._y a' = 2 ^ 52 + 4 /\
    P3._bottom_y a' < P3._y a'.
Proof.
  eexists. eexists. split; [vm_compute; reflexivity|]. split; [reflexivity|].
  split; [vm_compute; reflexivity|]. split; reflexivity.
Qed.

(** And for a pair of moves: from [2^53 + 1], with a step of 1, a
    [move_down] and a [move_up], both let through, leave the arrow two
    units higher than it was. *)
Example huge_arrow_pair_is_two_off :
  exists a a' : P3.Arrow,
    P3.Arrow_init P3.screen 10 (2 ^ 53 + 1) 0 (2 ^ 54) (2 ^ 54)
      = Return a /\
    P3._movement_distance a = 1%Q /\
    P3.all_taken [P3.MoveDown; P3.MoveUp] a = true /\
    P3.calls [P3.MoveDown; P3.MoveUp] a = Return a' /\
    P3._y a' = P3._y a - 2.
Proof.
  eexists. eexists. split; [vm_compute; reflexivity|]. split; [reflexivity|].
  split; [vm_compute; reflexivity|].
  split; [vm_compute; reflexivity|]. reflexivity.
Qed.

(** A quotient too large for a float: the constructor raises
    [OverflowError]. *)
Example Arrow_init_overflow :
  P3.Arrow_init P3.screen 0 0 0 (10 ^ 400) 1 = Raise OverflowError.
Proof. vm_compute. reflexivity. Qed.

(** C3 as stated fails: the arrow [main] builds is drawn at 506, above its
    top bound 887; and an arrow built inside its bounds but off the lines
    (y = 1 in 0..8, two lines) is drawn at -3 after one [move_up]. *)
Lemma drawn_within_bounds_counterexample :
  (exists a : P3.Arrow,
     P3.Arrow_init P3.screen 10 506 887 (887 + 368) 12 = Return a /\
     ~ (P3._top_y a <= P3._y a <= P3._bottom_y a)) /\
  (exists a a' : P3.Arrow,
     P3.Arrow_init P3.screen 10 1 0 8 2 = Return a /\
     (P3._top_y a <= P3._y a <= P3._bottom_y a) /\
     P3.calls [P3.MoveUp] a = Return a' /\
     P3._y a' = -3 /\
     ~ (P3._top_y a' <= P3._y a' <= P3._bottom_y a')).
Proof.
  split.
  - eexists. split; [vm_compute; reflexivity|]. cbn. lia.
  - eexists. eexists. split; [vm_compute; reflexivity|].
    split; [cbn; lia|]. split; [vm_compute; reflexivity|].
    split; [reflexivity|]. cbn. lia.
Qed.

Lemma drawn_within_bounds_witness :
  exists a a' : P3.Arrow,
    P3.Arrow_init P3.screen 10 1071 887 (887 + 368) 12 = Return a /\
    (887 <= P3._y a <= 887 + 368) /\
    P3.calls [P3.MoveDown; P3.MoveUp; P3.MoveUp] a = Return a' /\
    (887 <= P3._y a' <= 887 + 368).
Proof.
  apply (drawn_within_bounds P3.screen 10 1071 887 (887 + 368) 12 6
           [P3.MoveDown; P3.MoveUp; P3.MoveUp]);
    [lia | lia | lia | lia | lia | reflexivity | cbn; lia].
Defined.

(** C4 as stated fails: with the bounds 0 and [2^53 + 1] (not reversed)
    and one line, the step [(bottom - top) / 1] is the float [2^53], and
    the one [move_down] from the top draws the arrow at [2^53], one short
    of the bottom bound. *)
Lemma move_down_reaches_bottom_counterexample :
  exists a a' : P3.Arrow,
    P3.Arrow_init P3.screen 10 0 0 (2 ^ 53 + 1) 1 = Return a /\
    P3._y a = P3._top_y a /\
    P3._y_with_decimal a = PyInt (P3._top_y a) /\
    P3._top_y a <= P3._bottom_y a /\
    0 < P3._num_lines a /\
    py_truediv (P3._bottom_y a - P3._top_y a) (P3._num_lines a)
      = Return (P3._movement_distance a) /\
    P3.calls (repeat P3.MoveDown (Z.to_nat (P3._num_lines a))) a
      = Return a' /\
    P3._y a' = 2 ^ 53 /\
    P3._y a' <> P3._bottom_y a.
Proof.
  eexists. eexists. split; [vm_compute; reflexivity|].
  split; [reflexivity|]. split; [reflexivity|].
  split; [cbn; lia|]. split; [reflexivity|].
  split; [vm_compute; reflexivity|].
  split; [vm_compute; reflexivity|].
  split; [reflexivity|]. cbn. lia.
Qed.

Lemma move_down_reaches_bottom_witness :
  exists a' : P3.Arrow,
    P3.calls (repeat P3.MoveDown 12)
      (P3.set_y (inject_Z 887) Runs.menu_arrow) = Return a' /\
    P3._y a' = 887 + 368.
Proof.
  apply (move_down_reaches_bottom
           (P3.set_y (inject_Z 887) Runs.menu_arrow));
    vm_compute;
    first [reflexivity | discriminate
          | split; first [reflexivity | discriminate]].
Defined.

(** C5 as stated fails: from the top bound, one [move_up] (held back by the
    guard) and one [move_down] (let through) leave the arrow a whole step
    lower, here 4 units. *)
Lemma paired_moves_return_counterexample :
  exists a a' : P3.Arrow,
    P3.Arrow_init P3.screen 10 0 0 8 2 = Return a /\
    P3.count_calls P3.MoveUp [P3.MoveUp; P3.MoveDown] = 1 /\
    P3.count_calls P3.MoveDown [P3.MoveUp; P3.MoveDown] = 1 /\
    P3.calls [P3.MoveUp; P3.MoveDown] a = Return a' /\
    P3._y a' = 4 /\
    ~ (Z.abs (P3._y a' - P3._y a) <= 1).
Proof.
  eexists. eexists. split; [vm_compute; reflexivity|].
  split; [reflexivity|]. split; [reflexivity|].
  split; [vm_compute; reflexivity|]. split; [reflexivity|]. cbn. lia.
Qed.

Lemma paired_moves_return_witness :
  exists a' : P3.Arrow,
    P3.calls [P3.MoveUp; P3.MoveDown; P3.MoveDown; P3.MoveUp]
      (P3.set_y (inject_Z 1071) Runs.menu_arrow) = Return a' /\
    Z.abs (P3._y a' - 1071) <= 1.
Proof.
  apply (paired_moves_return (P3.set_y (inject_Z 1071) Runs.menu_arrow)
           [P3.MoveUp; P3.MoveDown; P3.MoveDown; P3.MoveUp]);
    vm_compute;
    first [reflexivity | discriminate
          | split; first [reflexivity | discriminate]].
Defined.

Lemma move_up_at_top_witness :
  exists a : P3.Arrow,
    P3.Arrow_init P3.screen 10 887 887 (887 + 368) 12 = Return a /\
    P3.move_up a = Return a.
Proof.
  eexists. split; [vm_compute; reflexivity|].
  apply move_up_at_top. reflexivity.
Defined.


Lemma Arrow_init_needs_lines_witness :
  P3.Arrow_init P3.screen 10 506 887 (887 + 368) 0
    = Raise ZeroDivisionError /\
  P3.Arrow_init P3.screen 10 506 887 (887 + 368) 12
    <> Raise ZeroDivisionError.
Proof.
  split.
  - apply (proj1 (Arrow_init_needs_lines P3.screen 10 506 887
                    (887 + 368) 0)).
    reflexivity.
  - assert (N : 12 <> 0) by discriminate.
    destruct (proj2 (Arrow_init_needs_lines P3.screen 10 506 887
                       (887 + 368) 12) N) as (H & _).
    exact H.
Defined.

(** ** Assets that do not load *)

Section LoadFailure.

Import SoundObject P3 Runs.
Local Open Scope string_scope.

Variable d : disk.




Lemma handle_events_cons (e : event) (es : list event)
    (st : main_state) (w : world) :
  handle_events d (e :: es) st w =
    match handle_event d e st w with
    | (Return st', w') => handle_events d es st' w'
    | (Raise x, w') => (Raise x, w')
    end.
Proof. reflexivity. Qed.


Lemma main_loop_running (f : frame) (frames : list frame)
    (st : main_state) (w : world) :
  program_running st = true ->
  main_loop d (f :: frames) st w =
    match handle_events d (events f) st
            (on_music (music_advance (played_since f)) w) with
    | (Return st', w') => main_loop d frames st' (stop_when_done w')
    | (Raise e, w') => (Raise e, w')
    end.
Proof.
  intros R. cbn [main_loop]. rewrite R. reflexivity.
Qed.


End LoadFailure.



(** * Further properties of [SoundObject.py] *)

Section WatchdogAlgebra.

Import SoundObject.

(** X1.  Calling [stop_when_done] twice in a row does what calling it once
    does: a first call that stops the stream disarms the watchdog, and a
    first call that does nothing is followed by one that does nothing. *)
Theorem stop_when_done_idempotent (w : world) :
  stop_when_done (stop_when_done w) = stop_when_done w.
Proof.
  destruct (Z.eq_dec (TARGET_DURATION w) (-1)) as [E|N].
  - rewrite !(stop_when_done_disarmed w E). reflexivity.
  - destruct (Z.le_gt_cases (music_get_pos (music w)) (TARGET_DURATION w))
      as [L|G].
    + rewrite !(stop_when_done_early w L). reflexivity.
    + rewrite (stop_when_done_late w N G).
      apply stop_when_done_disarmed. reflexivity.
Qed.

(** X2.  [stop_when_done] can only stop and disarm: it never prints, never
    changes the loaded file, the loop count or the start position; the
    armed duration afterwards is the one before or [-1]; the stream
    afterwards is as before or silent, and it is never set playing. *)
Theorem stop_when_done_only_stops (w : world) :
  stdout (stop_when_done w) = stdout w /\
  loaded_file (music (stop_when_done w)) = loaded_file (music w) /\
  loops (music (stop_when_done w)) = loops (music w) /\
  play_from (music (stop_when_done w)) = play_from (music w) /\
  (TARGET_DURATION (stop_when_done w) = TARGET_DURATION w \/
   TARGET_DURATION (stop_when_done w) = -1) /\
  (stream (music (stop_when_done w)) = stream (music w) \/
   stream (music (stop_when_done w)) = Silent) /\
  (stream (music (stop_when_done w)) = Playing ->
   stop_when_done w = w).
Proof.
  unfold stop_when_done.
  destruct (negb (TARGET_DURATION w =? -1));
    [destruct (music_get_pos (music w) >? TARGET_DURATION w)|];
    cbn; repeat split; auto; discriminate.
Qed.

(** X3.  [pause] and the watchdog commute, and [pause] does not depend on
    the segment it is called on: pausing (through any segment) and then
    ticking gives the state that ticking and then pausing (through any
    other segment) gives.  In particular a paused clip whose elapsed time
    is past the armed duration is stopped by the next tick. *)
Theorem pause_commutes_with_watchdog (s s' : SoundObject) (w : world) :
  stop_when_done (pause s w) = pause s' (stop_when_done w).
Proof.
  unfold stop_when_done, pause, music_get_pos. cbn.
  destruct (negb (TARGET_DURATION w =? -1));
    [destruct (played_ms (music w) >? TARGET_DURATION w)|];
    cbn; reflexivity.
Qed.

Variable d : disk.

(** X4.  A [play] that returns wipes the earlier playback state: the state
    it leaves is the same whatever was loaded, playing, paused or armed
    before (only the text printed so far is carried over), so that playing
    the same segment again right away returns and leaves that state
    again. *)
Theorem play_forgets_prior_state (s : SoundObject) (w1 w2 w1' : world) :
  play d s w1 = (Return tt, w1') ->
  stdout w1 = stdout w2 ->
  play d s w2 = (Return tt, w1') /\
  play d s w1' = (Return tt, w1').
Proof.
  intros P O. apply play_returns_inv in P.
  destruct P as (start & L & S & Pl & ->).
  rewrite !(play_returns d s _ start L S Pl).
  unfold set_TARGET_DURATION, on_music, music_play, music_load. cbn.
  rewrite O. split; reflexivity.
Qed.

Lemma idle_step_keeps_unwatched (e : idle_event) (w : world) :
  TARGET_DURATION w = -1 /\ stream (music w) <> Silent ->
  TARGET_DURATION (idle_step e w) = -1 /\
  stream (music (idle_step e w)) <> Silent.
Proof.
  intros (T & S). destruct e as [|t|p]; cbn [idle_step].
  - rewrite (stop_when_done_disarmed w T). split; assumption.
  - split; assumption.
  - split; [exact T|]. cbn. destruct (stream (music w)); congruence.
Qed.

(** X5.  The sentinel is also a duration: when [play] returns for a
    segment built with duration [-1], the watchdog is disarmed, and no
    sequence of ticks, clock readings and [pause] calls ever stops the
    clip, however long it has played. *)
Theorem duration_minus_one_never_stops (s : SoundObject) (w w1 : world)
    (es : list idle_event) :
  play d s w = (Return tt, w1) ->
  _duration s = -1 ->
  TARGET_DURATION (idle_run es w1) = -1 /\
  stream (music (idle_run es w1)) <> Silent /\
  loaded_file (music (idle_run es w1)) = Some (sound_path d s).
Proof.
  intros P D. apply play_returns_inv in P.
  destruct P as (start & _ & _ & _ & W).
  assert (I : (TARGET_DURATION w1 = -1 /\ stream (music w1) <> Silent) /\
              loaded_file (music w1) = Some (sound_path d s)).
  { subst w1. cbn. rewrite D. repeat split. discriminate. }
  clear W. revert w1 I.
  induction es as [|e es IH]; intros w1 (I & F).
  - cbn. destruct I. repeat split; assumption.
  - cbn. apply IH. split; [apply idle_step_keeps_unwatched, I|].
    destruct I as (T & _). destruct e as [|t|p]; cbn [idle_step].
    + rewrite (stop_when_done_disarmed w1 T). exact F.
    + exact F.
    + exact F.
Qed.

(** X22.  A [play] that does not return leaves the armed duration it
    found, whatever it raises.  When it was the load that failed, the
    device is as it was, so the previous clip plays on under its own
    duration.  When the load had succeeded (the exception comes from the
    division or from [music.play]), the new file is loaded and the stream
    is silent, under the duration of the previous clip. *)
Theorem play_raises_keeps_target (s : SoundObject) (w w' : world)
    (e : exn) :
  play d s w = (Raise e, w') ->
  TARGET_DURATION w' = TARGET_DURATION w /\
  (music_load_error d (sound_path d s) <> None -> music w' = music w) /\
  (music_load_error d (sound_path d s) = None ->
   loaded_file (music w') = Some (sound_path d s) /\
   stream (music w') = Silent).
Proof.
  unfold play.
  destruct (music_load_error d (sound_path d s)) as [[m|n]|].
  - intros H. injection H as _ <-.
    split; [reflexivity|]. split; [reflexivity | discriminate].
  - intros H. injection H as _ <-.
    split; [reflexivity|]. split; [reflexivity | discriminate].
  - destruct (py_truediv (_start_time s) 1000) as [start|e'].
    + destruct (music_play_error d (sound_path d s) start).
      * intros H. injection H as _ <-.
        split; [reflexivity|]. split; [congruence | split; reflexivity].
      * discriminate.
    + intros H. injection H as _ <-.
      split; [reflexivity|]. split; [congruence | split; reflexivity].
Qed.

End WatchdogAlgebra.

Lemma stop_when_done_only_stops_witness :
  SoundObject.stop_when_done (Samples.world_playing 750 300)
    = Samples.world_playing 750 300.
Proof.
  apply (proj2 (proj2 (proj2 (proj2 (proj2 (proj2
           (stop_when_done_only_stops (Samples.world_playing 750 300)))))))).
  reflexivity.
Defined.

Lemma play_forgets_prior_state_witness :
  exists w' : SoundObject.world,
    SoundObject.play Samples.disk_complete P3.headings_sound
      SoundObject.world_initial = (Return tt, w') /\
    SoundObject.play Samples.disk_complete P3.headings_sound w'
      = (Return tt, w').
Proof.
  eexists.
  exact (play_forgets_prior_state Samples.disk_complete P3.headings_sound
           (Samples.world_playing 750 300) SoundObject.world_initial _
           eq_refl eq_refl).
Defined.

Lemma duration_minus_one_never_stops_witness :
  exists w1 : SoundObject.world,
    SoundObject.play Samples.disk_complete Runs.unbounded_sound
      (Samples.world_playing 750 300) = (Return tt, w1) /\
    SoundObject.TARGET_DURATION
      (SoundObject.idle_run
         [SoundObject.DeviceClock 99999999; SoundObject.Tick] w1) = -1 /\
    SoundObject.stream
      (SoundObject.music
         (SoundObject.idle_run
            [SoundObject.DeviceClock 99999999; SoundObject.Tick] w1))
      <> SoundObject.Silent /\
    SoundObject.loaded_file
      (SoundObject.music
         (SoundObject.idle_run
            [SoundObject.DeviceClock 99999999; SoundObject.Tick] w1))
      = Some (SoundObject.sound_path Samples.disk_complete
                Runs.unbounded_sound).
Proof.
  eexists. split; [reflexivity|].
  exact (duration_minus_one_never_stops Samples.disk_complete
           Runs.unbounded_sound (Samples.world_playing 750 300) _
           [SoundObject.DeviceClock 99999999; SoundObject.Tick]
           eq_refl eq_refl).
Defined.

Lemma play_raises_keeps_target_witness :
  exists w' : SoundObject.world,
    SoundObject.play Samples.disk_no_seek P3.forward_sound
      (Samples.world_playing 9000 10)
    = (Raise (pygame_error "Position not implemented for music type"),
       w') /\
    SoundObject.TARGET_DURATION w' = 9000 /\
    SoundObject.stream (SoundObject.music w') = SoundObject.Silent.
Proof.
  eexists. split; [vm_compute; reflexivity|].
  destruct (play_raises_keeps_target Samples.disk_no_seek P3.forward_sound
              (Samples.world_playing 9000 10) _ _ eq_refl)
    as (T & _ & L).
  split; [exact T|]. exact (proj2 (L eq_refl)).
Defined.

(** * Further properties of the arrow *)

Section ArrowAlgebra.

Import P3 ArrowSpec Runs.
Local Open Scope Q_scope.

Lemma set_x_own (a : Arrow) : set_x (_x a) a = a.
Proof. destruct a; reflexivity. Qed.

Lemma set_x_set_x (x1 x2 : Z) (a : Arrow) :
  set_x x1 (set_x x2 a) = set_x x1 a.
Proof. reflexivity. Qed.

Lemma toggle_left_right (a : Arrow) : toggle_left (toggle_right a) = a.
Proof.
  unfold toggle_left, toggle_right. cbn [_x set_x].
  rewrite set_x_set_x.
  replace (_x a + 400 - 400)%Z with (_x a) by lia.
  apply set_x_own.
Qed.

Lemma toggle_right_left (a : Arrow) : toggle_right (toggle_left a) = a.
Proof.
  unfold toggle_left, toggle_right. cbn [_x set_x].
  rewrite set_x_set_x.
  replace (_x a - 400 + 400)%Z with (_x a) by lia.
  apply set_x_own.
Qed.

(** X6.  [toggle_left] undoes [toggle_right] and the other way round: the
    arrow is back as it was, in every field. *)
Theorem toggle_round_trip (a : Arrow) :
  toggle_left (toggle_right a) = a /\ toggle_right (toggle_left a) = a.
Proof.
  split; [apply toggle_left_right | apply toggle_right_left].
Qed.

(** A result with the x of its arrow, if any, set to [x]. *)
Lemma vertical_call_set_x (c : arrow_call) (x : Z) (a : Arrow) :
  is_vertical c = true ->
  call c (set_x x a)
    = match call c a with
      | Return b => Return (set_x x b)
      | Raise e => Raise e
      end.
Proof.
  destruct c; try discriminate; intros _; cbn [call];
    unfold move_up, move_down;
    cbn [_y _top_y _bottom_y _y_with_decimal _movement_distance set_x].
  - destruct (_y a >? _top_y a)%Z; [|reflexivity].
    destruct (to_float (_y_with_decimal a)); [|reflexivity].
    destruct (float_sub _ _); reflexivity.
  - destruct (_y a <? _bottom_y a)%Z; [|reflexivity].
    destruct (to_float (_y_with_decimal a)); [|reflexivity].
    destruct (float_add _ _); reflexivity.
Qed.

Lemma vertical_calls_set_x (cs : list arrow_call) :
  forall (x : Z) (a : Arrow),
    calls (filter is_vertical cs) (set_x x a)
      = match calls (filter is_vertical cs) a with
        | Return b => Return (set_x x b)
        | Raise e => Raise e
        end.
Proof.
  induction cs as [|c cs IH]; intros x a; [reflexivity|].
  cbn [filter]. destruct (is_vertical c) eqn:V; [|apply IH].
  cbn [calls]. rewrite (vertical_call_set_x c x a V).
  destruct (call c a) as [b|e]; [apply IH | reflexivity].
Qed.

Lemma vertical_call_x (c : arrow_call) (a b : Arrow) :
  is_vertical c = true -> call c a = Return b -> _x b = _x a.
Proof.
  destruct c; try discriminate; intros _ H; cbn [call] in H.
  - apply move_up_cases in H.
    destruct H as [(_ & ->) | (_ & x & total & _ & _ & ->)]; reflexivity.
  - apply move_down_cases in H.
    destruct H as [(_ & ->) | (_ & x & total & _ & _ & ->)]; reflexivity.
Qed.

(** X7.  The horizontal and the vertical part of an arrow do not interact:
    any sequence of calls gives what the [move_up] and [move_down] calls of
    the sequence alone give (the same exception if one of them raises), the
    arrow they return having its x moved by 400 for each [toggle_right] and
    by -400 for each [toggle_left]. *)
Theorem toggles_and_moves_independent (cs : list arrow_call) (a : Arrow) :
  calls cs a
    = match calls (filter is_vertical cs) a with
      | Return b => Return (set_x (_x a + x_shift cs) b)
      | Raise e => Raise e
      end.
Proof.
  revert a. induction cs as [|c cs IH]; intros a.
  - cbn. rewrite Z.add_0_r, set_x_own. reflexivity.
  - destruct c; cbn [filter is_vertical x_shift].
    + cbn [calls]. destruct (call MoveUp a) as [b|e] eqn:C; [|reflexivity].
      rewrite IH, (vertical_call_x MoveUp a b eq_refl C). reflexivity.
    + cbn [calls]. destruct (call MoveDown a) as [b|e] eqn:C; [|reflexivity].
      rewrite IH, (vertical_call_x MoveDown a b eq_refl C). reflexivity.
    + cbn [calls call]. rewrite IH. unfold toggle_left.
      rewrite vertical_calls_set_x.
      destruct (calls (filter is_vertical cs) a) as [b|e]; [|reflexivity].
      cbn [_x set_x]. rewrite set_x_set_x. do 2 f_equal. lia.
    + cbn [calls call]. rewrite IH. unfold toggle_right.
      rewrite vertical_calls_set_x.
      destruct (calls (filter is_vertical cs) a) as [b|e]; [|reflexivity].
      cbn [_x set_x]. rewrite set_x_set_x. do 2 f_equal. lia.
Qed.

(** X8.  At or past a bound the guard holds the move back: [move_down] on
    an arrow drawn at or below [_bottom_y], and [move_up] on one drawn at
    or above [_top_y], return the arrow unchanged. *)
Theorem moves_held_at_bounds (a : Arrow) :
  ((_bottom_y a <= _y a)%Z -> move_down a = Return a) /\
  ((_y a <= _top_y a)%Z -> move_up a = Return a).
Proof.
  split; intros H.
  - unfold move_down.
    destruct (Z.ltb_spec (_y a) (_bottom_y a)); [lia | reflexivity].
  - unfold move_up.
    destruct (Z.gtb_spec (_y a) (_top_y a)); [lia | reflexivity].
Qed.

(** X9.  Rounding hardly accumulates.  For an arrow state with its bounds
    within [-2^30 .. 2^30] and not reversed, at least one line, the step
    the constructor computes for them, and a drawn position that is the
    rounding of the running total and lies within [-2^30 .. 2^30]: every
    sequence of at most 65536 calls returns, and the drawn position is then
    within one half plus [2^-20] per call of the running total moved by
    [n] whole steps, where [n] counts the moves the guards let through
    ([+1] down, [-1] up). *)
Theorem drawn_position_never_drifts (a : Arrow) (cs : list arrow_call) :
  (- 2 ^ 30 <= _top_y a)%Z ->
  (_top_y a <= _bottom_y a)%Z ->
  (_bottom_y a <= 2 ^ 30)%Z ->
  (0 < _num_lines a)%Z ->
  py_truediv (_bottom_y a - _top_y a) (_num_lines a)
    = Return (_movement_distance a) ->
  _y a = py_round (_y_with_decimal a) ->
  (- 2 ^ 30 <= _y a <= 2 ^ 30)%Z ->
  (Z.of_nat (List.length cs) <= 65536)%Z ->
  exists a' : Arrow,
    calls cs a = Return a' /\
    number_value (_y_with_decimal a)
      + inject_Z (net_steps cs a) * _movement_distance a
      - ((1 # 2) + inject_Z (Z.of_nat (List.length cs)) * (1 # 1048576))
      <= inject_Z (_y a') /\
    inject_Z (_y a')
      <= number_value (_y_with_decimal a)
         + inject_Z (net_steps cs a) * _movement_distance a
         + ((1 # 2) + inject_Z (Z.of_nat (List.length cs)) * (1 # 1048576)).
Proof.
  intros T TB B N S R Y L.
  assert (M : modest a) by (repeat split; assumption).
  pose proof (length_bound_Q cs L) as LQ.
  destruct (drift_calls cs a 0 M R (start_in_reach a R Y)
              ltac:(lra) ltac:(lra)) as (a' & Cs & R' & Lo & Hi).
  exists a'. split; [exact Cs|].
  pose proof (py_round_error (_y_with_decimal a')) as (YLo & YHi).
  rewrite <- R' in YLo, YHi.
  set (n := inject_Z (net_steps cs a) * _movement_distance a) in *.
  split; lra.
Qed.

End ArrowAlgebra.

Lemma moves_held_at_bounds_witness :
  P3.move_down (P3.set_y (inject_Z 1255) Runs.menu_arrow)
    = Return (P3.set_y (inject_Z 1255) Runs.menu_arrow) /\
  P3.move_up Runs.menu_arrow = Return Runs.menu_arrow.
Proof.
  split.
  - apply (proj1 (moves_held_at_bounds
                    (P3.set_y (inject_Z 1255) Runs.menu_arrow))).
    vm_compute. discriminate.
  - apply (proj2 (moves_held_at_bounds Runs.menu_arrow)).
    vm_compute. discriminate.
Defined.

Lemma drawn_position_never_drifts_witness :
  exists a' : P3.Arrow,
    P3.calls [P3.MoveUp; P3.MoveDown; P3.MoveDown; P3.MoveDown]
      (P3.set_y (inject_Z 887) Runs.menu_arrow) = Return a' /\
    (887 + 3 * (8631899285793451 # 281474976710656)
     - ((1 # 2) + 4 * (1 # 1048576)) <= inject_Z (P3._y a')
     /\ inject_Z (P3._y a')
        <= 887 + 3 * (8631899285793451 # 281474976710656)
           + ((1 # 2) + 4 * (1 # 1048576)))%Q.
Proof.
  apply (drawn_position_never_drifts
           (P3.set_y (inject_Z 887) Runs.menu_arrow)
           [P3.MoveUp; P3.MoveDown; P3.MoveDown; P3.MoveDown]);
    vm_compute;
    first [reflexivity | discriminate
          | split; first [reflexivity | discriminate]].
Defined.

(** * Properties of the indicator widgets *)

Section IndicatorFacts.

Import Paint Indicator.

Lemma set_remaining_own (i : Indicator) :
  set_remaining (_remaining_ON_ticks i) i = i.
Proof. destruct i; reflexivity. Qed.

Lemma draw_counts_down (i : Indicator) (cv : canvas) :
  draw i cv =
    (set_remaining
       (if _remaining_ON_ticks i >? 0 then _remaining_ON_ticks i - 1
        else _remaining_ON_ticks i) i,
     draw_text i
       (if _remaining_ON_ticks i >? 0 then _on_color i else _off_color i)
       cv).
Proof.
  unfold draw. destruct (_remaining_ON_ticks i >? 0); [reflexivity|].
  rewrite set_remaining_own. reflexivity.
Qed.

Lemma draws_count_down (k : nat) :
  forall (i : Indicator) (cv : canvas),
    fst (draws k i cv) =
      set_remaining
        (Z.max (Z.min (_remaining_ON_ticks i) 0)
               (_remaining_ON_ticks i - Z.of_nat k)) i /\
    List.length (snd (draws k i cv)) = (List.length cv + k)%nat.
Proof.
  induction k as [|k IH]; intros i cv.
  - cbn [draws fst snd]. split; [|lia].
    rewrite <- (set_remaining_own i) at 1. f_equal. lia.
  - cbn [draws]. rewrite draw_counts_down.
    destruct (IH (set_remaining
                    (if _remaining_ON_ticks i >? 0
                     then _remaining_ON_ticks i - 1
                     else _remaining_ON_ticks i) i)
                 (draw_text i
                    (if _remaining_ON_ticks i >? 0 then _on_color i
                     else _off_color i) cv)) as (-> & ->).
    split.
    + cbn [_remaining_ON_ticks set_remaining].
      unfold set_remaining; cbn. f_equal.
      destruct (Z.gtb_spec (_remaining_ON_ticks i) 0); lia.
    + unfold draw_text. rewrite length_app. cbn. lia.
Qed.

(** X11.  A flash is a pulse of [_ticks_in_flash] draws: of the draws that
    follow a [flash], on whatever canvas, the first [_ticks_in_flash] paint
    the label on the "on" colour and every later one paints it on the
    "off" colour; each draw paints exactly one label. *)
Theorem flash_pulse (i : Indicator) (k : nat) (cv cv' : canvas) :
  snd (draw (fst (draws k (flash i) cv)) cv')
    = draw_text i
        (if Z.of_nat k <? _ticks_in_flash i then _on_color i
         else _off_color i) cv' /\
  List.length (snd (draws k (flash i) cv)) = (List.length cv + k)%nat.
Proof.
  destruct (draws_count_down k (flash i) cv) as (-> & ->).
  split; [|reflexivity].
  rewrite draw_counts_down. cbn [snd].
  unfold flash, draw_text. cbn.
  destruct (Z.ltb_spec (Z.of_nat k) (_ticks_in_flash i));
    destruct (Z.gtb_spec
                (Z.max (Z.min (_ticks_in_flash i) 0)
                   (_ticks_in_flash i - Z.of_nat k)) 0);
    try reflexivity; lia.
Qed.

Lemma call_keeps_counter_bounded (c : indicator_call) (i : Indicator)
    (cv : canvas) (r : Z) :
  0 <= r <= _ticks_in_flash i ->
  exists r', 0 <= r' <= _ticks_in_flash i /\
    fst (call c (set_remaining r i, cv)) = set_remaining r' i.
Proof.
  intros B. destruct c; cbn [call fst snd].
  - exists (_ticks_in_flash i). split; [lia | reflexivity].
  - rewrite draw_counts_down. cbn [fst _remaining_ON_ticks set_remaining].
    destruct (Z.gtb_spec r 0).
    + exists (r - 1). split; [lia | reflexivity].
    + exists r. split; [lia | reflexivity].
Qed.

Lemma calls_keep_counter_bounded (cs : list indicator_call) :
  forall (i : Indicator) (cv : canvas) (r : Z),
    0 <= r <= _ticks_in_flash i ->
    exists r', 0 <= r' <= _ticks_in_flash i /\
      fst (calls cs (set_remaining r i, cv)) = set_remaining r' i.
Proof.
  induction cs as [|c cs IH]; intros i cv r B.
  - exists r. split; [exact B | reflexivity].
  - change (calls (c :: cs) (set_remaining r i, cv))
      with (calls cs (call c (set_remaining r i, cv))).
    destruct (call_keeps_counter_bounded c i cv r B) as (r1 & B1 & E1).
    destruct (call c (set_remaining r i, cv)) as (i1, cv1) eqn:C.
    cbn [fst] in E1. subst i1. apply IH, B1.
Qed.

(** X12.  An indicator built by the constructor keeps its counter between
    0 and 2 whatever [flash] and [draw] calls are made, and those calls
    change nothing else of it: label, position, colours and pulse length
    stay as built. *)
Theorem indicator_counter_bounded (surface_in : P3.Surface)
    (text_label : string) (x_pos_in y_pos_in : Z)
    (cs : list indicator_call) (cv : canvas) :
  exists r : Z,
    0 <= r <= 2 /\
    fst (calls cs
           (Indicator_init surface_in text_label x_pos_in y_pos_in, cv))
      = set_remaining r
          (Indicator_init surface_in text_label x_pos_in y_pos_in).
Proof.
  exact (calls_keep_counter_bounded cs
           (Indicator_init surface_in text_label x_pos_in y_pos_in) cv 0
           (conj (Z.le_refl 0) (Z.le_0_2))).
Qed.

Lemma calls_only_touch_counter (cs : list indicator_call) :
  forall (i : Indicator) (cv : canvas),
    exists r, fst (calls cs (i, cv)) = set_remaining r i.
Proof.
  induction cs as [|c cs IH]; intros i cv.
  - exists (_remaining_ON_ticks i). cbn. symmetry. apply set_remaining_own.
  - change (calls (c :: cs) (i, cv)) with (calls cs (call c (i, cv))).
    destruct c; cbn [call fst snd].
    + destruct (IH (flash i) cv) as (r & ->). exists r. reflexivity.
    + rewrite draw_counts_down.
      match goal with
      | |- context [calls cs (set_remaining ?n i, ?c1)] =>
          destruct (IH (set_remaining n i) c1) as (r & ->)
      end.
      exists r. reflexivity.
Qed.

(** X13.  [flash] restarts the pulse from any state: whatever [flash] and
    [draw] calls came before, the indicator after a new [flash] is the one
    a [flash] of the original indicator gives. *)
Theorem flash_restarts (i : Indicator) (cs : list indicator_call)
    (cv : canvas) :
  flash (fst (calls cs (i, cv))) = flash i.
Proof.
  destruct (calls_only_touch_counter cs i cv) as (r & ->). reflexivity.
Qed.

End IndicatorFacts.

Section PanelFacts.

Import Paint Runs.

Lemma countdown_step (r : Z) (k : nat) :
  Z.max (Z.min (if r >? 0 then r - 1 else r) 0)
        ((if r >? 0 then r - 1 else r) - Z.of_nat k)
  = Z.max (Z.min r 0) (r - Z.of_nat (S k)).
Proof.
  destruct (Z.gtb_spec r 0); lia.
Qed.

Lemma key_display_draws (k : nat) :
  forall (kd : KeyDisplay.KeyDisplay) (cv : canvas),
    fst (KeyDisplay.draws k kd cv) =
      KeyDisplay.set_indicators
        (Indicator.set_remaining
           (Z.max (Z.min (Indicator._remaining_ON_ticks
                            (KeyDisplay._UP_indicator kd)) 0)
                  (Indicator._remaining_ON_ticks
                     (KeyDisplay._UP_indicator kd) - Z.of_nat k))
           (KeyDisplay._UP_indicator kd))
        (Indicator.set_remaining
           (Z.max (Z.min (Indicator._remaining_ON_ticks
                            (KeyDisplay._DOWN_indicator kd)) 0)
                  (Indicator._remaining_ON_ticks
                     (KeyDisplay._DOWN_indicator kd) - Z.of_nat k))
           (KeyDisplay._DOWN_indicator kd))
        kd.
Proof.
  induction k as [|k IH]; intros kd cv.
  - cbn [KeyDisplay.draws fst]. rewrite !Z.sub_0_r.
    replace (Z.max (Z.min _ 0) _)
      with (Indicator._remaining_ON_ticks (KeyDisplay._UP_indicator kd))
      by lia.
    replace (Z.max (Z.min _ 0) _)
      with (Indicator._remaining_ON_ticks (KeyDisplay._DOWN_indicator kd))
      by lia.
    rewrite !set_remaining_own. destruct kd; reflexivity.
  - cbn [KeyDisplay.draws]. unfold KeyDisplay.draw.
    rewrite !draw_counts_down. rewrite IH.
    cbn [KeyDisplay._UP_indicator KeyDisplay._DOWN_indicator
         KeyDisplay.set_indicators Indicator._remaining_ON_ticks
         Indicator.set_remaining].
    rewrite !countdown_step. reflexivity.
Qed.

Lemma main_menu_keys_draws (k : nat) :
  forall (kd : MainMenuKeys.MainMenuKeys) (cv : canvas),
    fst (MainMenuKeys.draws k kd cv) =
      MainMenuKeys.set_indicators
        (Indicator.set_remaining
           (Z.max (Z.min (Indicator._remaining_ON_ticks
                            (MainMenuKeys._UP_indicator kd)) 0)
                  (Indicator._remaining_ON_ticks
                     (MainMenuKeys._UP_indicator kd) - Z.of_nat k))
           (MainMenuKeys._UP_indicator kd))
        (Indicator.set_remaining
           (Z.max (Z.min (Indicator._remaining_ON_ticks
                            (MainMenuKeys._DOWN_indicator kd)) 0)
                  (Indicator._remaining_ON_ticks
                     (MainMenuKeys._DOWN_indicator kd) - Z.of_nat k))
           (MainMenuKeys._DOWN_indicator kd))
        kd.
Proof.
  induction k as [|k IH]; intros kd cv.
  - cbn [MainMenuKeys.draws fst]. rewrite !Z.sub_0_r.
    replace (Z.max (Z.min _ 0) _)
      with (Indicator._remaining_ON_ticks (MainMenuKeys._UP_indicator kd))
      by lia.
    replace (Z.max (Z.min _ 0) _)
      with (Indicator._remaining_ON_ticks (MainMenuKeys._DOWN_indicator kd))
      by lia.
    rewrite !set_remaining_own. destruct kd; reflexivity.
  - cbn [MainMenuKeys.draws]. unfold MainMenuKeys.draw.
    rewrite !draw_counts_down. rewrite IH.
    cbn [MainMenuKeys._UP_indicator MainMenuKeys._DOWN_indicator
         MainMenuKeys.set_indicators Indicator._remaining_ON_ticks
         Indicator.set_remaining].
    rewrite !countdown_step. reflexivity.
Qed.

Lemma draw_after_draws (i : Indicator.Indicator) (k : nat) (cv : canvas) :
  snd (Indicator.draw
         (Indicator.set_remaining
            (Z.max (Z.min (Indicator._remaining_ON_ticks i) 0)
                   (Indicator._remaining_ON_ticks i - Z.of_nat k)) i) cv)
  = Indicator.draw_text i
      (if Z.of_nat k <? Indicator._remaining_ON_ticks i
       then Indicator._on_color i else Indicator._off_color i) cv.
Proof.
  rewrite draw_counts_down. cbn [snd].
  cbn [Indicator._remaining_ON_ticks Indicator._on_color
       Indicator._off_color Indicator.set_remaining].
  destruct (Z.ltb_spec (Z.of_nat k) (Indicator._remaining_ON_ticks i));
    destruct (Z.gtb_spec
                (Z.max (Z.min (Indicator._remaining_ON_ticks i) 0)
                   (Indicator._remaining_ON_ticks i - Z.of_nat k)) 0);
    try reflexivity; lia.
Qed.

Lemma key_display_draw_after_draws (kd : KeyDisplay.KeyDisplay) (k : nat)
    (cv cv' : canvas) :
  snd (KeyDisplay.draw (fst (KeyDisplay.draws k kd cv)) cv')
  = Indicator.draw_text (KeyDisplay._DOWN_indicator kd)
      (if Z.of_nat k
          <? Indicator._remaining_ON_ticks (KeyDisplay._DOWN_indicator kd)
       then Indicator._on_color (KeyDisplay._DOWN_indicator kd)
       else Indicator._off_color (KeyDisplay._DOWN_indicator kd))
      (Indicator.draw_text (KeyDisplay._UP_indicator kd)
         (if Z.of_nat k
             <? Indicator._remaining_ON_ticks (KeyDisplay._UP_indicator kd)
          then Indicator._on_color (KeyDisplay._UP_indicator kd)
          else Indicator._off_color (KeyDisplay._UP_indicator kd))
         cv').
Proof.
  rewrite key_display_draws. unfold KeyDisplay.draw.
  cbn [KeyDisplay._UP_indicator KeyDisplay._DOWN_indicator
       KeyDisplay.set_indicators].
  rewrite <- !draw_after_draws.
  destruct (Indicator.draw _ cv') as (up, cv1).
  cbn [snd]. destruct (Indicator.draw _ cv1) as (down, cv2). reflexivity.
Qed.

Lemma main_menu_keys_draw_after_draws (kd : MainMenuKeys.MainMenuKeys)
    (k : nat) (cv cv' : canvas) :
  snd (MainMenuKeys.draw (fst (MainMenuKeys.draws k kd cv)) cv')
  = Indicator.draw_text (MainMenuKeys._DOWN_indicator kd)
      (if Z.of_nat k
          <? Indicator._remaining_ON_ticks (MainMenuKeys._DOWN_indicator kd)
       then Indicator._on_color (MainMenuKeys._DOWN_indicator kd)
       else Indicator._off_color (MainMenuKeys._DOWN_indicator kd))
      (Indicator.draw_text (MainMenuKeys._UP_indicator kd)
         (if Z.of_nat k
             <? Indicator._remaining_ON_ticks (MainMenuKeys._UP_indicator kd)
          then Indicator._on_color (MainMenuKeys._UP_indicator kd)
          else Indicator._off_color (MainMenuKeys._UP_indicator kd))
         cv').
Proof.
  rewrite main_menu_keys_draws. unfold MainMenuKeys.draw.
  cbn [MainMenuKeys._UP_indicator MainMenuKeys._DOWN_indicator
       MainMenuKeys.set_indicators].
  rewrite <- !draw_after_draws.
  destruct (Indicator.draw _ cv') as (up, cv1).
  cbn [snd]. destruct (Indicator.draw _ cv1) as (down, cv2). reflexivity.
Qed.

Lemma key_display_built (surface_in : P3.Surface) (x y : Z) (cv0 : canvas) :
  fst (KeyDisplay.KeyDisplay_init surface_in x y cv0) =
    {| KeyDisplay._surface := surface_in;
       KeyDisplay._x_pos := x;
       KeyDisplay._y_pos := y;
       KeyDisplay._y_offset := 30;
       KeyDisplay._UP_indicator :=
         Indicator.Indicator_init surface_in "UP" x y;
       KeyDisplay._DOWN_indicator :=
         Indicator.Indicator_init surface_in "DOWN" x (y + 30) |}.
Proof. reflexivity. Qed.

Lemma main_menu_keys_built (surface_in : P3.Surface) (x y : Z)
    (cv0 : canvas) :
  fst (MainMenuKeys.MainMenuKeys_init surface_in x y cv0) =
    {| MainMenuKeys._surface := surface_in;
       MainMenuKeys._x_pos := x;
       MainMenuKeys._y_pos := y;
       MainMenuKeys._x_offset := 400;
       MainMenuKeys._UP_indicator :=
         Indicator.Indicator_init surface_in "Book Reader" x y;
       MainMenuKeys._DOWN_indicator :=
         Indicator.Indicator_init surface_in "Headings and Topic Sentences"
           (x + 400) y |}.
Proof. reflexivity. Qed.

Ltac two_labels k :=
  destruct (Z.ltb_spec (Z.of_nat k) 2);
  (destruct (Z.ltb_spec (Z.of_nat k) 0); [lia|]);
  unfold Indicator.draw_text; rewrite <- app_assoc; reflexivity.

(** X14.  A [KeyDisplay] built at [(x, y)] paints, at construction and at
    every [draw], the label "UP" at [(x, y)] and then "DOWN" at
    [(x, y + 30)].  Both are blue when built; after [UP()] the "UP" label
    is red for the next two draws and blue again from the third, "DOWN"
    staying blue, and the same with the roles exchanged after [DOWN()]. *)
Theorem key_display_pulse (surface_in : P3.Surface) (x y : Z)
    (cv0 cv cv' : canvas) (k : nat) :
  let kd := fst (KeyDisplay.KeyDisplay_init surface_in x y cv0) in
  snd (KeyDisplay.KeyDisplay_init surface_in x y cv0)
    = cv0 ++ [painted_label "UP" blue (x, y);
              painted_label "DOWN" blue (x, y + 30)] /\
  snd (KeyDisplay.draw (fst (KeyDisplay.draws k (KeyDisplay.UP kd) cv)) cv')
    = cv' ++ [painted_label "UP" (if Z.of_nat k <? 2 then red else blue)
                (x, y);
              painted_label "DOWN" blue (x, y + 30)] /\
  snd (KeyDisplay.draw (fst (KeyDisplay.draws k (KeyDisplay.DOWN kd) cv)) cv')
    = cv' ++ [painted_label "UP" blue (x, y);
              painted_label "DOWN" (if Z.of_nat k <? 2 then red else blue)
                (x, y + 30)].
Proof.
  cbn zeta. rewrite key_display_built. split; [|split].
  - cbn. unfold Indicator.draw_text. rewrite <- app_assoc. reflexivity.
  - rewrite key_display_draw_after_draws.
    cbn [KeyDisplay.UP KeyDisplay.set_indicators KeyDisplay._UP_indicator
         KeyDisplay._DOWN_indicator Indicator.flash Indicator.set_remaining
         Indicator.Indicator_init Indicator._remaining_ON_ticks
         Indicator._ticks_in_flash Indicator._on_color Indicator._off_color].
    two_labels k.
  - rewrite key_display_draw_after_draws.
    cbn [KeyDisplay.DOWN KeyDisplay.set_indicators KeyDisplay._UP_indicator
         KeyDisplay._DOWN_indicator Indicator.flash Indicator.set_remaining
         Indicator.Indicator_init Indicator._remaining_ON_ticks
         Indicator._ticks_in_flash Indicator._on_color Indicator._off_color].
    two_labels k.
Qed.

(** X15.  The panel of [main], a [MainMenuKeys] built at [(x, y)], paints
    at construction and at every [draw] the label "Book Reader" at
    [(x, y)] and then "Headings and Topic Sentences" at [(x + 400, y)],
    both blue; after [UP()] (or [DOWN()]) the first (or second) label is
    red for the next two draws and blue again from the third. *)
Theorem main_menu_keys_pulse (surface_in : P3.Surface) (x y : Z)
    (cv0 cv cv' : canvas) (k : nat) :
  let kd := fst (MainMenuKeys.MainMenuKeys_init surface_in x y cv0) in
  snd (MainMenuKeys.MainMenuKeys_init surface_in x y cv0)
    = cv0 ++ [painted_label "Book Reader" blue (x, y);
              painted_label "Headings and Topic Sentences" blue
                (x + 400, y)] /\
  snd (MainMenuKeys.draw
         (fst (MainMenuKeys.draws k (MainMenuKeys.UP kd) cv)) cv')
    = cv' ++ [painted_label "Book Reader"
                (if Z.of_nat k <? 2 then red else blue) (x, y);
              painted_label "Headings and Topic Sentences" blue
                (x + 400, y)] /\
  snd (MainMenuKeys.draw
         (fst (MainMenuKeys.draws k (MainMenuKeys.DOWN kd) cv)) cv')
    = cv' ++ [painted_label "Book Reader" blue (x, y);
              painted_label "Headings and Topic Sentences"
                (if Z.of_nat k <? 2 then red else blue) (x + 400, y)].
Proof.
  cbn zeta. rewrite main_menu_keys_built. split; [|split].
  - cbn. unfold Indicator.draw_text. rewrite <- app_assoc. reflexivity.
  - rewrite main_menu_keys_draw_after_draws.
    cbn [MainMenuKeys.UP MainMenuKeys.set_indicators
         MainMenuKeys._UP_indicator MainMenuKeys._DOWN_indicator
         Indicator.flash Indicator.set_remaining
         Indicator.Indicator_init Indicator._remaining_ON_ticks
         Indicator._ticks_in_flash Indicator._on_color Indicator._off_color].
    two_labels k.
  - rewrite main_menu_keys_draw_after_draws.
    cbn [MainMenuKeys.DOWN MainMenuKeys.set_indicators
         MainMenuKeys._UP_indicator MainMenuKeys._DOWN_indicator
         Indicator.flash Indicator.set_remaining
         Indicator.Indicator_init Indicator._remaining_ON_ticks
         Indicator._ticks_in_flash Indicator._on_color Indicator._off_color].
    two_labels k.
Qed.

End PanelFacts.


(** * Properties of the loop of [main] *)

Section MainLoop.

Import SoundObject P3 Runs.

Variable d : disk.

Lemma stop_when_done_stdout (w : world) :
  stdout (stop_when_done w) = stdout w.
Proof.
  unfold stop_when_done.
  destruct (negb (TARGET_DURATION w =? -1));
    [destruct (music_get_pos (music w) >? TARGET_DURATION w)|];
    reflexivity.
Qed.

Lemma quiet_or_fatal_stdout {A : Type} (P : A -> Prop) (w w0 : world)
    (out : result A * world) :
  stdout w = stdout w0 ->
  quiet_or_fatal P w out -> quiet_or_fatal P w0 out.
Proof.
  intros E. destruct out as ([a|[m| | |m|n]], w');
    unfold quiet_or_fatal; rewrite ?E; exact (fun H => H).
Qed.

Lemma quiet_or_fatal_raise {A B : Type} (P : A -> Prop) (Q : B -> Prop)
    (w w' : world) (e : exn) :
  quiet_or_fatal P w (Raise e, w') -> quiet_or_fatal Q w (Raise e, w').
Proof. destruct e; exact (fun H => H). Qed.

(** [play] on a segment whose start time divides into a float. *)
Lemma play_quiet_or_fatal (s : SoundObject) (w : world) (start : Q) :
  py_truediv (_start_time s) 1000 = Return start ->
  quiet_or_fatal (fun _ : unit => True) w (play d s w).
Proof.
  intros S. unfold play.
  destruct (music_load_error d (sound_path d s)) as [[m|n]|].
  - exists (sound_path d s). right. reflexivity.
  - reflexivity.
  - rewrite S.
    destruct (music_play_error d (sound_path d s) start) as [[m|n]|].
    + reflexivity.
    + reflexivity.
    + split; [exact I | reflexivity].
Qed.

Ltac menu_sound :=
  unfold handle_event, handle_keydown, show_help, toggle_selection,
         next_state, toggled, bind, ret;
  cbn [selected arrow program_running];
  match goal with
  | |- context [play ?d ?s ?w] =>
      let S := fresh "S" in
      let P := fresh "P" in
      let start := fresh "start" in
      let w1 := fresh "w" in
      let O := fresh "O" in
      assert (S : exists start : Q,
                py_truediv (_start_time s) 1000 = Return start)
        by (eexists; vm_compute; reflexivity);
      destruct S as (start & S);
      pose proof (play_quiet_or_fatal s w start S) as P;
      destruct (play d s w) as ([[]|e], w1);
      [destruct P as (_ & O); split; [reflexivity | exact O]
      |exact (quiet_or_fatal_raise _ _ w w1 e P)]
  end.

Lemma handle_event_spec (e : event) (st : main_state) (w : world) :
  quiet_or_fatal (fun st' => st' = next_state e st) w
    (handle_event d e st w).
Proof.
  destruct e as [|k|]; try (split; reflexivity).
  destruct st as [a sel run].
  destruct k; try (split; reflexivity); destruct sel; menu_sound.
Qed.

Lemma handle_events_spec (es : list event) :
  forall (st : main_state) (w : world),
    quiet_or_fatal (fun st' => st' = next_states es st) w
      (handle_events d es st w).
Proof.
  induction es as [|e es IH]; intros st w.
  - split; reflexivity.
  - rewrite handle_events_cons.
    pose proof (handle_event_spec e st w) as Q.
    destruct (handle_event d e st w) as ([st1|x], w1).
    + destruct Q as (-> & O).
      apply (quiet_or_fatal_stdout _ w1 w _ O).
      exact (IH (next_state e st) w1).
    + exact (quiet_or_fatal_raise _ _ w w1 x Q).
Qed.

Lemma next_state_consistent (e : event) (st : main_state) :
  menu_consistent st -> menu_consistent (next_state e st).
Proof.
  unfold menu_consistent. intros C.
  destruct e as [|k|]; [exact C | | exact C].
  destruct k; try exact C; cbn [next_state]; unfold toggled;
    destruct (selected st); cbn [arrow selected]; rewrite C; reflexivity.
Qed.

Lemma next_states_consistent (es : list event) :
  forall st, menu_consistent st -> menu_consistent (next_states es st).
Proof.
  induction es as [|e es IH]; intros st C; [exact C|].
  apply IH, next_state_consistent, C.
Qed.

Lemma main_loop_outcome (frames : list frame) :
  forall (st : main_state) (w : world),
    menu_consistent st ->
    quiet_or_fatal menu_consistent w (main_loop d frames st w).
Proof.
  induction frames as [|f frames IH]; intros st w C.
  - split; [exact C | reflexivity].
  - destruct (program_running st) eqn:R.
    + rewrite (main_loop_running d f frames st w R).
      pose proof (handle_events_spec (events f) st
                    (on_music (music_advance (played_since f)) w)) as Q.
      destruct (handle_events d (events f) st
                  (on_music (music_advance (played_since f)) w))
        as ([st1|x], w1).
      * destruct Q as (-> & O).
        apply (quiet_or_fatal_stdout _ (stop_when_done w1) w).
        -- rewrite stop_when_done_stdout. exact O.
        -- apply IH, next_states_consistent, C.
      * apply (quiet_or_fatal_raise
                 (fun st' => st' = next_states (events f) st)).
        exact Q.
    + cbn [main_loop]. rewrite R. split; [exact C | reflexivity].
Qed.

Lemma main_builds_menu_arrow :
  Arrow_init screen 10 506 887 (887 + 368) 12 = Return menu_arrow.
Proof. vm_compute. reflexivity. Qed.

Lemma main_outcome_consistent (frames : list frame) (w : world) :
  quiet_or_fatal menu_consistent w (main d frames w).
Proof.
  unfold main. unfold bind at 1. unfold load_image.
  destruct (image_load_error d (image_path d "MainMenu.png"%string))
    as [[m|n]|].
  - exists (image_path d "MainMenu.png"%string). left. reflexivity.
  - reflexivity.
  - rewrite main_builds_menu_arrow.
    apply main_loop_outcome. reflexivity.
Qed.

(** X16.  However it runs, [main] ends in one of three ways.  It returns,
    and then it has printed nothing.  It raises [SystemExit], and then it
    has printed exactly one line, "Cannot load image: ..." or "Cannot load
    sound file: ...".  Or an exception of pygame that no [except] clause
    catches goes through ([pygame.error] from [music.play], or whatever
    else a load raised), and then nothing has been printed.  It never
    raises [ZeroDivisionError] or [OverflowError]: the arrow it builds has
    twelve lines, and the start times of its clips are small. *)
Theorem main_ends_quietly_or_fatally (frames : list frame) (w : world) :
  match main d frames w with
  | (Return _, w') => stdout w' = stdout w
  | (Raise (SystemExit _), w') =>
      exists path : string,
        stdout w' = stdout w ++ ["Cannot load image: " ++ path]%string \/
        stdout w' = stdout w ++ ["Cannot load sound file: " ++ path]%string
  | (Raise (pygame_error _), w') => stdout w' = stdout w
  | (Raise (other_exception _), w') => stdout w' = stdout w
  | (Raise ZeroDivisionError, _) => False
  | (Raise OverflowError, _) => False
  end.
Proof.
  pose proof (main_outcome_consistent frames w) as Q.
  unfold quiet_or_fatal in Q.
  destruct (main d frames w) as ([st|[m| | |m|n]], w');
    [apply Q | exact Q ..].
Qed.

(** X17.  In [main] the arrow follows the selection and nothing else: when
    [main] returns, its arrow is the one it built, still drawn at y = 506
    (no key moves it up or down), at x = 10 when the first entry is
    selected and at x = 410 when the second is. *)
Theorem menu_arrow_follows_selection (frames : list frame) (w w' : world)
    (st : main_state) :
  main d frames w = (Return st, w') ->
  arrow st = set_x (if selected st then 10 else 410)%Z menu_arrow /\
  _y (arrow st) = 506%Z.
Proof.
  intros E. pose proof (main_outcome_consistent frames w) as Q.
  rewrite E in Q. destruct Q as (C & _).
  split; [exact C | rewrite C; reflexivity].
Qed.

End MainLoop.

Lemma menu_arrow_follows_selection_witness :
  exists (st : P3.main_state) (w' : SoundObject.world),
    P3.main Samples.disk_complete Runs.two_frames SoundObject.world_initial
      = (Return st, w') /\
    P3.selected st = false /\
    P3._x (P3.arrow st) = 410 /\
    P3._y (P3.arrow st) = 506.
Proof.
  eexists. eexists. split; [vm_compute; reflexivity|].
  split; [reflexivity|]. split; [reflexivity|].
  refine (proj2 (menu_arrow_follows_selection Samples.disk_complete
                   Runs.two_frames SoundObject.world_initial _ _ _)).
  vm_compute. reflexivity.
Defined.

Section MainLoopKeys.

Import SoundObject P3 Runs.

Variable d : disk.

Lemma toggle_key_toggles (k : key) (st : main_state) (w : world) :
  is_toggle_key k = true ->
  handle_event d (KEYDOWN k) st w = toggle_selection d st w.
Proof.
  destruct k; try discriminate; intros _; reflexivity.
Qed.

Lemma toggle_selection_returns (st st' : main_state) (w w' : world) :
  toggle_selection d st w = (Return st', w') ->
  st' = toggled st /\
  play d (if selected st then headings_sound else bookreader_sound) w
    = (Return tt, w').
Proof.
  unfold toggle_selection, toggled, bind, ret.
  destruct (selected st).
  - destruct (play d headings_sound w) as ([[]|e], w1); [|discriminate].
    intros H. injection H as <- <-. split; reflexivity.
  - destruct (play d bookreader_sound w) as ([[]|e], w1); [|discriminate].
    intros H. injection H as <- <-. split; reflexivity.
Qed.

Lemma toggled_twice (st : main_state) : toggled (toggled st) = st.
Proof.
  destruct st as [a sel run]. unfold toggled.
  destruct sel; cbn [selected arrow program_running];
    rewrite ?toggle_left_right, ?toggle_right_left; reflexivity.
Qed.

Lemma toggled_selected (st : main_state) :
  selected (toggled st) = negb (selected st).
Proof. unfold toggled. destruct (selected st); reflexivity. Qed.

(** X18.  Two presses of toggle keys (any of J, D, K, F, the same or not)
    that are handled without an exception bring [main] back to the state
    it was in: same selection, same arrow, same running flag; and what is
    left playing and armed is the clip of the entry that is selected again.
    When both menu clips load and the device plays them, the two presses
    are handled without an exception. *)
Theorem toggle_keys_round_trip (k1 k2 : key) (st : main_state) (w : world) :
  is_toggle_key k1 = true ->
  is_toggle_key k2 = true ->
  (forall (st' : main_state) (w' : world),
     handle_events d [KEYDOWN k1; KEYDOWN k2] st w = (Return st', w') ->
     st' = st /\
     TARGET_DURATION w'
       = _duration (if selected st then bookreader_sound
                    else headings_sound) /\
     stream (music w') = Playing) /\
  (music_load_error d (sound_path d headings_sound) = None ->
   music_load_error d (sound_path d bookreader_sound) = None ->
   (forall start : Q,
      music_play_error d (sound_path d headings_sound) start = None) ->
   (forall start : Q,
      music_play_error d (sound_path d bookreader_sound) start = None) ->
   exists w' : world,
     handle_events d [KEYDOWN k1; KEYDOWN k2] st w = (Return st, w')).
Proof.
  intros T1 T2.
  assert (E : handle_events d [KEYDOWN k1; KEYDOWN k2] st w =
              match toggle_selection d st w with
              | (Return st1, w1) =>
                  match toggle_selection d st1 w1 with
                  | (Return st2, w2) => (Return st2, w2)
                  | (Raise x, w2) => (Raise x, w2)
                  end
              | (Raise x, w1) => (Raise x, w1)
              end).
  { rewrite handle_events_cons, (toggle_key_toggles k1 st w T1).
    destruct (toggle_selection d st w) as ([st1|x], w1); [|reflexivity].
    rewrite handle_events_cons, (toggle_key_toggles k2 st1 w1 T2).
    destruct (toggle_selection d st1 w1) as ([st2|x], w2); reflexivity. }
  rewrite E. clear E. split.
  - intros st' w'.
    destruct (toggle_selection d st w) as ([st1|x], w1) eqn:E1;
      [|discriminate].
    destruct (toggle_selection d st1 w1) as ([st2|x], w2) eqn:E2;
      [|discriminate].
    intros H. injection H as <- <-.
    apply toggle_selection_returns in E1. destruct E1 as (-> & _).
    apply toggle_selection_returns in E2. destruct E2 as (-> & P).
    rewrite toggled_selected in P.
    apply play_returns_inv in P. destruct P as (start & _ & _ & _ & ->).
    split; [apply toggled_twice|].
    destruct (selected st); split; reflexivity.
  - intros Lh Lb Ph Pb.
    assert (Sh : py_truediv (_start_time headings_sound) 1000
                 = Return 10%Q) by (vm_compute; reflexivity).
    assert (Sb : py_truediv (_start_time bookreader_sound) 1000
                 = Return 8%Q) by (vm_compute; reflexivity).
    destruct st as [a sel run].
    unfold toggle_selection, bind, ret.
    destruct sel; cbn [selected arrow program_running].
    + rewrite (play_returns d headings_sound w _ Lh Sh (Ph _)).
      cbv beta iota. cbn [selected arrow program_running].
      rewrite (play_returns d bookreader_sound _ _ Lb Sb (Pb _)).
      rewrite toggle_left_right. eexists. reflexivity.
    + rewrite (play_returns d bookreader_sound w _ Lb Sb (Pb _)).
      cbv beta iota. cbn [selected arrow program_running].
      rewrite (play_returns d headings_sound _ _ Lh Sh (Ph _)).
      rewrite toggle_right_left. eexists. reflexivity.
Qed.

Lemma main_loop_stopped (frames : list frame) (st : main_state)
    (w : world) :
  program_running st = false -> main_loop d frames st w = (Return st, w).
Proof.
  intros R. destruct frames; cbn [main_loop]; [|rewrite R]; reflexivity.
Qed.

Lemma next_state_keeps_stopped (e : event) (st : main_state) :
  program_running st = false -> program_running (next_state e st) = false.
Proof.
  intros R. destruct e as [|k|]; [reflexivity | | exact R].
  destruct k; try exact R; try reflexivity;
    cbn [next_state]; unfold toggled; destruct (selected st); exact R.
Qed.

Lemma next_states_stop (es : list event) :
  forall st,
    program_running st = false \/ existsb is_quit_event es = true ->
    program_running (next_states es st) = false.
Proof.
  induction es as [|e es IH]; intros st H.
  - destruct H as [R|Q]; [exact R | discriminate].
  - change (next_states (e :: es) st)
      with (next_states es (next_state e st)).
    apply IH. destruct H as [R|Q].
    + left. apply next_state_keeps_stopped, R.
    + cbn [existsb] in Q. apply orb_true_iff in Q. destruct Q as [Q|Q].
      * left. destruct e as [|k|]; [reflexivity | | discriminate].
        destruct k; try discriminate; reflexivity.
      * right. exact Q.
Qed.

Lemma handle_events_returns (es : list event) (st st' : main_state)
    (w w' : world) :
  handle_events d es st w = (Return st', w') -> st' = next_states es st.
Proof.
  intros H. pose proof (handle_events_spec d es st w) as Q.
  rewrite H in Q. exact (proj1 Q).
Qed.

(** X19.  A quit request (the window's QUIT event, or the L or S key) ends
    the loop at the end of the frame it arrives in: the frames after it
    are never read, and if [main]'s loop returns, it returns with
    [program_running] false.  The events that follow the request in the
    same frame are still handled: a loop that was running returns the
    state that all the events of the frame, in order, lead to, in the
    world that handling all of them and then the watchdog leave. *)
Theorem quit_ends_the_loop (f : frame) (frames : list frame)
    (st : main_state) (w : world) :
  existsb is_quit_event (events f) = true ->
  main_loop d (f :: frames) st w = main_loop d [f] st w /\
  (forall (st' : main_state) (w' : world),
     main_loop d (f :: frames) st w = (Return st', w') ->
     program_running st' = false) /\
  (program_running st = true ->
   forall (st' : main_state) (w' : world),
     main_loop d (f :: frames) st w = (Return st', w') ->
     st' = next_states (events f) st /\
     exists w1 : world,
       handle_events d (events f) st
         (on_music (music_advance (played_since f)) w) = (Return st', w1) /\
       w' = stop_when_done w1).
Proof.
  intros Q.
  destruct (program_running st) eqn:R.
  - rewrite !(main_loop_running d f _ st w R).
    destruct (handle_events d (events f) st
                (on_music (music_advance (played_since f)) w))
      as ([st1|x], w1) eqn:E.
    + pose proof (handle_events_returns _ _ _ _ _ E) as ->.
      pose proof (next_states_stop (events f) st (or_intror Q)) as S.
      rewrite !main_loop_stopped by exact S.
      split; [reflexivity|]. split.
      * intros st' w' H. injection H as <- _. exact S.
      * intros _ st' w' H. injection H as <- <-.
        split; [reflexivity|]. exists w1. split; reflexivity.
    + split; [reflexivity|]. split; [discriminate|].
      intros _ st' w'. discriminate.
  - rewrite !main_loop_stopped by exact R.
    split; [reflexivity|]. split; [|discriminate].
    intros st' w' H. injection H as <- _. exact R.
Qed.

(** X20.  Events that are neither toggle keys nor quit requests leave the
    state of [main] alone: if handling one returns, selection, arrow and
    running flag are as before.  Those that ask for no sound (every key but
    the help keys, every non-key event) change nothing at all. *)
Theorem passive_events_change_nothing (e : event) (st : main_state)
    (w : world) :
  is_passive_event e = true ->
  (forall (st' : main_state) (w' : world),
     handle_event d e st w = (Return st', w') -> st' = st) /\
  (sound_of_event e st = None ->
   handle_event d e st w = (Return st, w)).
Proof.
  intros P. split.
  - intros st' w' H.
    pose proof (handle_event_spec d e st w) as Q.
    rewrite H in Q. destruct Q as (-> & _).
    destruct e as [|k|]; [discriminate | | reflexivity].
    destruct k; try discriminate; reflexivity.
  - intros N. destruct e as [|k|]; [discriminate | | reflexivity].
    destruct k; try discriminate; reflexivity.
Qed.

Lemma idle_frames_when_silent (dts : list Z) :
  forall (st : main_state) (w : world),
    TARGET_DURATION w = -1 ->
    stream (music w) = Silent ->
    main_loop d (map idle_frame dts) st w = (Return st, w).
Proof.
  induction dts as [|dt dts IH]; intros st w T S; [reflexivity|].
  cbn [map main_loop]. destruct (program_running st); [|reflexivity].
  unfold bind, lift. cbn [events played_since idle_frame handle_events ret].
  assert (A : on_music (music_advance dt) w = w).
  { unfold on_music, music_advance. rewrite S. destruct w; reflexivity. }
  rewrite A, (stop_when_done_disarmed w T).
  exact (IH st w T S).
Qed.

Lemma elapse_own (w : world) :
  on_music (music_elapse (played_ms (music w))) w = w.
Proof. destruct w as [t [l s n p e] o]; reflexivity. Qed.

(** X21.  The loop stops a clip on time.  Let a clip be playing with a
    duration other than [-1] armed and not yet exceeded, and let frames
    without events go by, each taking a time that is not negative.  If the
    time played so far plus the time of those frames still does not exceed
    the armed duration, the clip is still playing, with that much played;
    otherwise the loop has stopped it and disarmed the watchdog.  The
    state of [main] is untouched either way. *)
Theorem idle_frames_stop_on_time (dts : list Z) (st : main_state)
    (w : world) :
  program_running st = true ->
  Forall (fun dt => 0 <= dt) dts ->
  stream (music w) = Playing ->
  TARGET_DURATION w <> -1 ->
  played_ms (music w) <= TARGET_DURATION w ->
  main_loop d (map idle_frame dts) st w =
    (Return st,
     if played_ms (music w) + total_ms dts <=? TARGET_DURATION w
     then on_music (music_elapse (played_ms (music w) + total_ms dts)) w
     else set_TARGET_DURATION (-1) (on_music music_stop w)).
Proof.
  intros R. revert w.
  induction dts as [|dt dts IH]; intros w F S T L.
  - cbn [map main_loop total_ms fold_right]. rewrite Z.add_0_r.
    destruct (Z.leb_spec (played_ms (music w)) (TARGET_DURATION w)); [|lia].
    rewrite elapse_own. reflexivity.
  - inversion F as [|? ? Fdt Fdts]; subst.
    assert (Tot : 0 <= total_ms dts).
    { clear - Fdts. induction Fdts; cbn; [lia|].
      unfold total_ms in *. lia. }
    cbn [map main_loop]. rewrite R.
    unfold bind at 1. unfold lift at 1.
    cbn [events played_since idle_frame handle_events].
    unfold bind at 1. unfold ret at 1. unfold bind at 1. unfold lift at 1.
    set (w1 := on_music (music_advance dt) w).
    assert (W1 : w1 = on_music (music_elapse (played_ms (music w) + dt)) w).
    { unfold w1, on_music, music_advance. rewrite S. reflexivity. }
    change (total_ms (dt :: dts)) with (dt + total_ms dts).
    destruct (Z.le_gt_cases (played_ms (music w) + dt) (TARGET_DURATION w))
      as [Le|Gt].
    + rewrite (stop_when_done_early w1) by (rewrite W1; exact Le).
      rewrite (IH w1 Fdts); try (rewrite W1; cbn; assumption).
      rewrite W1. cbn [played_ms music on_music music_elapse TARGET_DURATION].
      rewrite Z.add_assoc. reflexivity.
    + rewrite (stop_when_done_late w1);
        [|rewrite W1; exact T | rewrite W1; cbn; lia].
      rewrite idle_frames_when_silent by (rewrite W1; reflexivity).
      destruct (Z.leb_spec (played_ms (music w) + (dt + total_ms dts))
                  (TARGET_DURATION w)); [lia|].
      rewrite W1. reflexivity.
Qed.

End MainLoopKeys.

Lemma toggle_keys_round_trip_witness :
  exists w' : SoundObject.world,
    P3.handle_events Samples.disk_complete
      [P3.KEYDOWN P3.K_j; P3.KEYDOWN P3.K_f] Runs.menu_start
      SoundObject.world_initial = (Return Runs.menu_start, w') /\
    SoundObject.TARGET_DURATION w' = 1500 /\
    SoundObject.stream (SoundObject.music w') = SoundObject.Playing.
Proof.
  destruct (proj2 (toggle_keys_round_trip Samples.disk_complete
                     P3.K_j P3.K_f Runs.menu_start
                     SoundObject.world_initial eq_refl eq_refl)
              eq_refl eq_refl (fun _ => eq_refl) (fun _ => eq_refl))
    as (w' & H).
  exists w'. split; [exact H|].
  exact (proj2 (proj1 (toggle_keys_round_trip Samples.disk_complete
                         P3.K_j P3.K_f Runs.menu_start
                         SoundObject.world_initial eq_refl eq_refl)
                  Runs.menu_start w' H)).
Defined.

Lemma quit_ends_the_loop_witness :
  exists (st' : P3.main_state) (w' : SoundObject.world),
    P3.main_loop Samples.disk_complete
      ({| P3.events := [P3.KEYDOWN P3.K_l; P3.KEYDOWN P3.K_j];
          P3.played_since := 16 |} :: Runs.two_frames)
      Runs.menu_start SoundObject.world_initial = (Return st', w') /\
    st' = Runs.next_states [P3.KEYDOWN P3.K_l; P3.KEYDOWN P3.K_j]
            Runs.menu_start /\
    P3.selected st' = false /\
    P3.program_running st' = false.
Proof.
  eexists. eexists. split; [vm_compute; reflexivity|].
  split; [|split; reflexivity].
  refine (proj1 (proj2 (proj2 (quit_ends_the_loop Samples.disk_complete
                                 {| P3.events :=
                                      [P3.KEYDOWN P3.K_l;
                                       P3.KEYDOWN P3.K_j];
                                    P3.played_since := 16 |}
                                 Runs.two_frames Runs.menu_start
                                 SoundObject.world_initial eq_refl))
                  eq_refl _ _ _)).
  vm_compute. reflexivity.
Defined.

Lemma passive_events_change_nothing_witness :
  P3.handle_event Samples.disk_complete (P3.KEYDOWN (P3.K_other 32))
    Runs.menu_start (Samples.world_playing 750 300)
  = (Return Runs.menu_start, Samples.world_playing 750 300).
Proof.
  apply (proj2 (passive_events_change_nothing Samples.disk_complete
                  (P3.KEYDOWN (P3.K_other 32)) Runs.menu_start
                  (Samples.world_playing 750 300) eq_refl)).
  reflexivity.
Defined.

Lemma idle_frames_stop_on_time_witness :
  P3.main_loop Samples.disk_complete
    (map Runs.idle_frame [16; 17; 16; 17]) Runs.menu_start
    (Samples.world_playing 750 700)
  = (Return Runs.menu_start,
     SoundObject.set_TARGET_DURATION (-1)
       (SoundObject.on_music SoundObject.music_stop
          (Samples.world_playing 750 700))).
Proof.
  apply (idle_frames_stop_on_time Samples.disk_complete [16; 17; 16; 17]
           Runs.menu_start (Samples.world_playing 750 700)).
  - reflexivity.
  - repeat constructor; discriminate.
  - reflexivity.
  - discriminate.
  - cbn. discriminate.
Defined.
